(** * weight_log: weekly averages of a body-weight log

    A shallow embedding of [weight_log.py] (class [WeightLog] with
    [parse_log], [compute_weekly_averages], [generate_sundays_in_range],
    [find_first_sunday] and [write_to_csv], the record classes [LogEntry]
    and [WeeklyAverage], and [datetime_to_epoch]) together with the part of
    the Python runtime those functions rest on: exceptions, [date] and
    [datetime] values, [sum] over floats, list comparison and [list.sort].

    The program is read under Python 3 (it calls [print] with several
    arguments).  Reading the file and parsing its lines are left to the
    caller: [parse_log] receives the list of entries in file order. *)

From Stdlib Require Import ZArith List Lia Bool Ascii String.
From Stdlib Require Import Permutation Sorted.
From Stdlib Require Import Floats.PrimFloat Numbers.Cyclic.Int63.Uint63.
Import ListNotations.

Set Warnings "-inexact-float".
Local Open Scope Z_scope.

(* ================================================================= *)
(** ** The Python runtime the program uses *)

Module Py.

(** Exceptions that the modelled code can raise.  [SystemExit] is what
    the program's [error] helper ends in ([sys.exit(-1)]) after writing
    the message to stderr.  [OutOfFuel] is not a Python exception: it
    marks a loop of the model that was given too few iterations, and
    [generate_sundays_in_range_has_fuel] shows it is never returned. *)
Inductive exn : Type :=
| OverflowError
| TypeError
| AttributeError
| IndexError
| SystemExit (message : string)
| OutOfFuel.

Inductive result (A : Type) : Type :=
| Ok (a : A)
| Raise (e : exn).
Arguments Ok {A} a.
Arguments Raise {A} e.

Definition bind {A B : Type} (m : result A) (k : A -> result B) : result B :=
  match m with
  | Ok a => k a
  | Raise e => Raise e
  end.

(** *** [datetime.date]

    A date is represented by its proleptic Gregorian ordinal, the value
    of [date.toordinal()]: day 1 is 0001-01-01 and [date.max], which is
    9999-12-31, is day 3652059.  Date arithmetic goes through the ordinal
    and raises [OverflowError] when the result leaves that range. *)
Abbreviation date := Z (only parsing).

Definition MINORD : Z := 1.
Definition MAXORD : Z := 3652059.

Definition valid_date (d : date) : Prop := MINORD <= d <= MAXORD.

(** [date.weekday()]: Monday is 0 and Sunday is 6. *)
Definition weekday (d : date) : Z := (d + 6) mod 7.

(** [d + timedelta(days=n)]. *)
Definition date_add_days (d : date) (n : Z) : result date :=
  let r := d + n in
  if (MINORD <=? r) && (r <=? MAXORD) then Ok r else Raise OverflowError.

(** Construction of a date from year, month and day, as [date(y, m, d)]
    computes its ordinal; it serves to write concrete dates. *)
Definition is_leap (year : Z) : bool :=
  (year mod 4 =? 0) && (negb (year mod 100 =? 0) || (year mod 400 =? 0)).

Definition days_before_year (year : Z) : Z :=
  let y := year - 1 in
  y * 365 + y / 4 - y / 100 + y / 400.

Definition DAYS_BEFORE_MONTH : list Z :=
  [0; 31; 59; 90; 120; 151; 181; 212; 243; 273; 304; 334].

Definition days_before_month (year month : Z) : Z :=
  nth (Z.to_nat (month - 1)) DAYS_BEFORE_MONTH 0
  + (if (2 <? month) && is_leap year then 1 else 0).

Definition ymd2ord (year month day : Z) : date :=
  days_before_year year + days_before_month year month + day.

(** *** [datetime.datetime]

    The log's time format has minute precision and [datetime.combine]
    is called with [time(23, 59)], so seconds and microseconds are always
    zero; a datetime is a date with an hour and a minute. *)
Record datetime : Type := mkdatetime {
  dt_date : date;      (* [.date()] *)
  dt_hour : Z;
  dt_minute : Z
}.

(** [a < b] on datetimes: field by field. *)
Definition datetime_lt (a b : datetime) : bool :=
  if dt_date a =? dt_date b then
    if dt_hour a =? dt_hour b then dt_minute a <? dt_minute b
    else dt_hour a <? dt_hour b
  else dt_date a <? dt_date b.

(** [datetime.combine(d, time(h, m))]. *)
Definition combine (d : date) (h m : Z) : datetime := mkdatetime d h m.

(** *** Floats

    Weights are binary64 floats.  [sum] starts from the integer 0 and
    adds the items from left to right, which on floats is the fold below
    (CPython up to 3.11; from 3.12 on the fold carries a compensation
    term, which changes none of the results proved in this file).
    [x / n] converts the integer [n] to a float first; the conversion
    below is that of Python for every length a list can have. *)
Definition sum (l : list float) : float :=
  fold_left PrimFloat.add l 0%float.

Definition float_of_nat (n : nat) : float :=
  PrimFloat.of_uint63 (Uint63.of_Z (Z.of_nat n)).

Definition truediv (x : float) (n : nat) : float :=
  PrimFloat.div x (float_of_nat n).

(** *** [list.sort]

    [list.sort()] orders a list with [<] alone, is stable, and lets an
    exception of the comparison escape.  The model inserts the elements
    one after the other into the sorted prefix, asking [pivot < x] as
    CPython's binary insertion does, and puts the pivot in front of the
    first element it is less than.  On a comparison that is a strict
    weak order every stable sort returns this list. *)
Section Sort.
Context {A : Type} (lt : A -> A -> result bool).

Fixpoint insert (pivot : A) (sorted : list A) : result (list A) :=
  match sorted with
  | [] => Ok [pivot]
  | x :: rest =>
      match lt pivot x with
      | Raise e => Raise e
      | Ok true => Ok (pivot :: x :: rest)
      | Ok false =>
          match insert pivot rest with
          | Raise e => Raise e
          | Ok rest' => Ok (x :: rest')
          end
      end
  end.

Fixpoint sort_from (sorted : list A) (l : list A) : result (list A) :=
  match l with
  | [] => Ok sorted
  | pivot :: l' =>
      match insert pivot sorted with
      | Raise e => Raise e
      | Ok sorted' => sort_from sorted' l'
      end
  end.

Definition list_sort (l : list A) : result (list A) := sort_from [] l.
End Sort.

(** *** Rows of the output table

    A row is the three-element list [[Date, Bodyweight, Weekly Average]]:
    an integer followed by two cells, each a float or a string.  Lists
    compare at the first position where the elements are not [==]; there
    [<] decides, and [<] between a float and a string raises
    [TypeError].  Lists of the same length that are [==] throughout are
    not less than one another.  Floats are [==] and [<] as IEEE 754 has
    it, and strings, which here hold ASCII text, compare character by
    character.  (List comparison takes two elements that are one and the
    same object for equal without asking [==]; the cells of two rows are
    never the same float object.) *)
Inductive cell : Type :=
| CFloat (f : float)
| CStr (s : string).

Definition cell_eq (a b : cell) : bool :=
  match a, b with
  | CFloat x, CFloat y => PrimFloat.eqb x y
  | CStr x, CStr y => String.eqb x y
  | _, _ => false
  end.

Definition cell_lt (a b : cell) : result bool :=
  match a, b with
  | CFloat x, CFloat y => Ok (PrimFloat.ltb x y)
  | CStr x, CStr y => Ok (String.ltb x y)
  | _, _ => Raise TypeError
  end.

Definition row : Type := (Z * cell * cell)%type.

Definition row_lt (a b : row) : result bool :=
  let '(a0, a1, a2) := a in
  let '(b0, b1, b2) := b in
  if negb (a0 =? b0) then Ok (a0 <? b0)
  else if negb (cell_eq a1 b1) then cell_lt a1 b1
  else if negb (cell_eq a2 b2) then cell_lt a2 b2
  else Ok false.

End Py.

Import Py.

Declare Scope py_scope.
Notation "x <- m ;; k" := (bind m (fun x => k))
  (at level 61, m at next level, right associativity) : py_scope.
Local Open Scope py_scope.

(* ================================================================= *)
(** ** The record classes *)

Module LogEntry.
Record t : Type := mk {
  datetime : Py.datetime;
  weight : float
}.

(** [__lt__]: entries compare by their datetime alone. *)
Definition lt (self other : t) : bool :=
  datetime_lt (datetime self) (datetime other).
End LogEntry.

Module WeeklyAverage.
Record t : Type := mk {
  datetime : Py.datetime;
  weight : float
}.

Definition lt (self other : t) : bool :=
  datetime_lt (datetime self) (datetime other).
End WeeklyAverage.

(* ================================================================= *)
(** ** Week boundaries *)

(** [find_first_sunday]: [6 - start_date.weekday()] days after the start
    date. *)
Definition find_first_sunday (start_date : date) : result date :=
  let days_to_first_sunday := 6 - weekday start_date in
  date_add_days start_date days_to_first_sunday.

(** The [while date <= end_date] loop of [generate_sundays_in_range].
    [fuel] bounds the number of iterations. *)
Fixpoint sundays_loop (fuel : nat) (date end_date : Py.date)
    (sundays : list Py.date) : result (list Py.date) :=
  if date <=? end_date then
    match fuel with
    | O => Raise OutOfFuel
    | S fuel' =>
        date' <- date_add_days date 7 ;;
        sundays_loop fuel' date' end_date (sundays ++ [date])
    end
  else Ok sundays.

(** [generate_sundays_in_range].  Every iteration moves [date] forward by
    seven days, so [end_date - date + 1] iterations are more than the loop
    can make. *)
Definition generate_sundays_in_range (start_date end_date : date)
    : result (list date) :=
  date <- find_first_sunday start_date ;;
  sundays_loop (Z.to_nat (end_date - date + 1)) date end_date [].

(* ================================================================= *)
(** ** The [WeightLog] object *)

Record WeightLog : Type := mkWeightLog {
  num_entries : option nat;
  start_date : option date;
  end_date : option date;
  log_entries : list LogEntry.t;
  weekly_averages : list WeeklyAverage.t
}.

(** [__init__]. *)
Definition init : WeightLog := mkWeightLog None None None [] [].

Definition entry_date (entry : LogEntry.t) : date :=
  dt_date (LogEntry.datetime entry).

Definition EMPTY_LOG_MESSAGE : string := "Weight log devoid of any entries.".

(** [parse_log], from the point where the lines of the file have been read:
    [entries] is [self.log_entries] as the reading loop leaves it. *)
Definition parse_log (self : WeightLog) (entries : list LogEntry.t)
    : result WeightLog :=
  let num_entries := List.length entries in
  if Z.of_nat num_entries <=? 0 then Raise (SystemExit EMPTY_LOG_MESSAGE)
  else
    log_entries <- list_sort (fun a b => Ok (LogEntry.lt a b)) entries ;;
    match log_entries with
    | [] => Raise IndexError
    | first :: _ =>
        Ok {| num_entries := Some num_entries;
              start_date := Some (entry_date first);
              end_date := Some (entry_date (last log_entries first));
              log_entries := log_entries;
              weekly_averages := weekly_averages self |}
    end.

(** The test of the inner loop of [compute_weekly_averages]. *)
Definition in_week (previous_sunday sunday : date) (entry : LogEntry.t) : bool :=
  (previous_sunday <? entry_date entry) && (entry_date entry <=? sunday).

(** The inner loop, which appends to [total_weight] the weight of every
    entry that passes the test. *)
Definition total_weight (log_entries : list LogEntry.t)
    (previous_sunday sunday : date) : list float :=
  fold_left
    (fun total_weight entry =>
       if in_week previous_sunday sunday entry
       then total_weight ++ [LogEntry.weight entry]
       else total_weight)
    log_entries [].

Definition average_weight (total_weight : list float) : float :=
  truediv (sum total_weight) (List.length total_weight).

(** The [for sunday in sundays] loop; [averages] is [self.weekly_averages]. *)
Fixpoint weeks_loop (log_entries : list LogEntry.t) (previous_sunday : date)
    (sundays : list date) (averages : list WeeklyAverage.t)
    : list WeeklyAverage.t :=
  match sundays with
  | [] => averages
  | sunday :: sundays' =>
      let total_weight := total_weight log_entries previous_sunday sunday in
      let averages' :=
        if (0 <? List.length total_weight)%nat then
          let end_of_week := combine sunday 23 59 in
          averages ++ [WeeklyAverage.mk end_of_week (average_weight total_weight)]
        else averages in
      weeks_loop log_entries sunday sundays' averages'
  end.

Definition SPAN_MESSAGE : string :=
  "Error: Weight log entries must span at least one week to enable calculation of the weekly averages.".

(** [compute_weekly_averages].  The result holds the object after the call
    and what the call printed; of the printed lines the model keeps the
    span message only (the other lines report progress).  With no Sunday in
    range [sundays[0]] raises [IndexError], the handler prints the message,
    and the loop over [sundays] has nothing to visit, so that
    [previous_sunday], which is then unbound, is never read. *)
Definition compute_weekly_averages (self : WeightLog)
    : result (WeightLog * list string) :=
  match start_date self, end_date self with
  | None, _ => Raise AttributeError
  | Some _, None => Raise TypeError
  | Some start_date, Some end_date =>
      sundays <- generate_sundays_in_range start_date end_date ;;
      match sundays with
      | [] => Ok (self, [SPAN_MESSAGE])
      | first :: _ =>
          previous_sunday <- date_add_days first (-7) ;;
          Ok ({| num_entries := num_entries self;
                 start_date := Some start_date;
                 end_date := Some end_date;
                 log_entries := log_entries self;
                 weekly_averages :=
                   weeks_loop (log_entries self) previous_sunday sundays
                     (weekly_averages self) |}, [])
      end
  end.

(** [datetime_to_epoch]: milliseconds since 1970-01-01 00:00.  The
    difference of the two datetimes is a whole number of seconds, which
    [total_seconds()], the product by 1000 and [int] all carry exactly. *)
Definition EPOCH_ORDINAL : Z := ymd2ord 1970 1 1.

Definition datetime_to_epoch (time : datetime) : Z :=
  ((dt_date time - EPOCH_ORDINAL) * 86400
   + dt_hour time * 3600 + dt_minute time * 60) * 1000.

Section Output.

(** ["{:.1f}".format]: the text of a float with one fractional digit. *)
Variable format_1f : float -> string.

(** [write_to_csv]: the rows handed to the CSV writer, below the header.
    The two loops append one row for every entry and one for every weekly
    average; the list is then sorted. *)
Definition write_to_csv (self : WeightLog) : result (list row) :=
  let entries_and_averages := [] in
  let entries_and_averages :=
    fold_left
      (fun rows entry =>
         let datetime := datetime_to_epoch (LogEntry.datetime entry) in
         let weight := LogEntry.weight entry in
         rows ++ [(datetime, CFloat weight, CStr "")])
      (log_entries self) entries_and_averages in
  let entries_and_averages :=
    fold_left
      (fun rows entry =>
         let datetime := datetime_to_epoch (WeeklyAverage.datetime entry) in
         let average_weight := format_1f (WeeklyAverage.weight entry) in
         rows ++ [(datetime, CStr "", CStr average_weight)])
      (weekly_averages self) entries_and_averages in
  list_sort row_lt entries_and_averages.

(** The [generate] branch of [main]. *)
Definition main_generate (entries : list LogEntry.t)
    : result (list row * list string) :=
  weight_log <- parse_log init entries ;;
  r <- compute_weekly_averages weight_log ;;
  rows <- write_to_csv (fst r) ;;
  Ok (rows, snd r).

End Output.

(* ================================================================= *)
(** ** Timestamps as text

    [datestring_to_datetime], [inspect_datestring_format],
    [datetime_to_datestring] and [datestring_to_epoch] rest on
    [datetime.strptime] and [datetime.strftime] with [TIME_FORMAT].  A text
    is a [string]: a sequence of characters with code points below 256. *)

Definition TIME_FORMAT : string := "%Y-%m-%d-%H:%M".

(** *** The regular expression of a format

    [strptime] turns the format into a regular expression, every directive
    into a named group, and matches it at the start of the text as [re]
    does: alternatives in their order, the first way through the whole
    expression wins.  The expressions below are those that the directives
    of [TIME_FORMAT] need; [\d] is [[0-9]] on these characters. *)
Inductive regex : Type :=
| Eps
| Lit (c : ascii)
| Range (lo hi : ascii)
| Cat (r1 r2 : regex)
| Alt (r1 r2 : regex)
| Group (name : ascii) (r : regex).

Definition in_range (lo hi c : ascii) : bool :=
  (N_of_ascii lo <=? N_of_ascii c)%N && (N_of_ascii c <=? N_of_ascii hi)%N.

(** The groups matched so far, the last one first. *)
Definition groups : Type := list (ascii * string).

(** Backtracking match of [r] at the start of [s]; [k] goes on with the
    text matched, the rest of the text and the groups. *)
Fixpoint rmatch {A : Type} (r : regex) (s : string) (found : groups)
    (k : string -> string -> groups -> option A) : option A :=
  match r with
  | Eps => k EmptyString s found
  | Lit c =>
      match s with
      | String x s' =>
          if Ascii.eqb x c then k (String x EmptyString) s' found else None
      | EmptyString => None
      end
  | Range lo hi =>
      match s with
      | String x s' =>
          if in_range lo hi x then k (String x EmptyString) s' found else None
      | EmptyString => None
      end
  | Cat r1 r2 =>
      rmatch r1 s found
        (fun m1 s1 found1 =>
           rmatch r2 s1 found1
             (fun m2 s2 found2 => k (m1 ++ m2)%string s2 found2))
  | Alt r1 r2 =>
      match rmatch r1 s found k with
      | Some a => Some a
      | None => rmatch r2 s found k
      end
  | Group name r' =>
      rmatch r' s found (fun m s' found' => k m s' ((name, m) :: found'))
  end.

Definition digit : regex := Range "0" "9".

(** The table of [_strptime.TimeRE], for the directives in use. *)
Definition directive (c : ascii) : option regex :=
  if Ascii.eqb c "Y" then
    Some (Group "Y" (Cat digit (Cat digit (Cat digit digit))))
  else if Ascii.eqb c "m" then
    Some (Group "m" (Alt (Cat (Lit "1") (Range "0" "2"))
                    (Alt (Cat (Lit "0") (Range "1" "9"))
                         (Range "1" "9"))))
  else if Ascii.eqb c "d" then
    Some (Group "d" (Alt (Cat (Lit "3") (Range "0" "1"))
                    (Alt (Cat (Range "1" "2") digit)
                    (Alt (Cat (Lit "0") (Range "1" "9"))
                    (Alt (Range "1" "9")
                         (Cat (Lit " ") (Range "1" "9")))))))
  else if Ascii.eqb c "H" then
    Some (Group "H" (Alt (Cat (Lit "2") (Range "0" "3"))
                    (Alt (Cat (Range "0" "1") digit)
                         digit)))
  else if Ascii.eqb c "M" then
    Some (Group "M" (Alt (Cat (Range "0" "5") digit) digit))
  else None.

(** [TimeRE.pattern]: a directive gives its expression, any other
    character of [TIME_FORMAT] stands for itself. *)
Fixpoint pattern (format : string) : option regex :=
  match format with
  | EmptyString => Some Eps
  | String "%" (String c format') =>
      match directive c, pattern format' with
      | Some r, Some rest => Some (Cat r rest)
      | _, _ => None
      end
  | String c format' =>
      match pattern format' with
      | Some rest => Some (Cat (Lit c) rest)
      | None => None
      end
  end.

Definition TIME_RE : regex :=
  Eval cbv in match pattern TIME_FORMAT with Some r => r | None => Eps end.

(** [int] on the text of a group: decimal digits, behind a space in one
    alternative of [%d], which [int] skips. *)
Definition digit_value (c : ascii) : Z := Z.of_N (N_of_ascii c) - 48.

Fixpoint int_from (acc : Z) (text : string) : Z :=
  match text with
  | EmptyString => acc
  | String c text' =>
      if Ascii.eqb c " " then int_from acc text'
      else int_from (10 * acc + digit_value c) text'
  end.

Definition int (text : string) : Z := int_from 0 text.

(** [found_dict[name]]. *)
Fixpoint group (name : ascii) (found : groups) : string :=
  match found with
  | [] => EmptyString
  | (n, text) :: found' => if Ascii.eqb n name then text else group name found'
  end.

(** *** The checks of the [datetime] constructor *)

Definition DAYS_IN_MONTH : list Z :=
  [-1; 31; 28; 31; 30; 31; 30; 31; 31; 30; 31; 30; 31].

Definition days_in_month (year month : Z) : Z :=
  if (month =? 2) && is_leap year then 29
  else nth (Z.to_nat month) DAYS_IN_MONTH 0.

Definition check_date_fields (year month day : Z) : bool :=
  (1 <=? year) && (year <=? 9999)
  && (1 <=? month) && (month <=? 12)
  && (1 <=? day) && (day <=? days_in_month year month).

Definition check_time_fields (hour minute : Z) : bool :=
  (0 <=? hour) && (hour <=? 23) && (0 <=? minute) && (minute <=? 59).

(** *** [datetime.strptime(data_string, TIME_FORMAT)]

    [ValueError] as the program meets it: the three ways in which
    [strptime] raises it, the unpacking of a line of the log that does not
    split in two, and [float] on a text that is no number. *)
Inductive ValueError : Type :=
| does_not_match_format
| unconverted_data_remains
| out_of_range
| not_two_values
| not_a_float.

Definition strptime (data_string : string) : ValueError + datetime :=
  match rmatch TIME_RE data_string []
          (fun _ rest found => Some (rest, found)) with
  | None => inl does_not_match_format
  | Some (rest, found_dict) =>
      if negb (String.eqb rest EmptyString) then inl unconverted_data_remains
      else
        let year := int (group "Y" found_dict) in
        let month := int (group "m" found_dict) in
        let day := int (group "d" found_dict) in
        let hour := int (group "H" found_dict) in
        let minute := int (group "M" found_dict) in
        if check_date_fields year month day && check_time_fields hour minute
        then inr (mkdatetime (ymd2ord year month day) hour minute)
        else inl out_of_range
  end.

Definition FORMAT_MESSAGE : string :=
  "Date string must conform to format: %Y-%m-%d-%H:%M".

(** [inspect_datestring_format]: a [ValueError] of [strptime] ends the
    program through [error]. *)
Definition inspect_datestring_format (date_string : string) : result unit :=
  match strptime date_string with
  | inr _ => Ok tt
  | inl _ => Raise (SystemExit FORMAT_MESSAGE)
  end.

(** [datestring_to_datetime]: the inspection, then what [strptime] gives
    when it is called again, its [ValueError] included. *)
Definition datestring_to_datetime (date_string : string)
    : result (ValueError + datetime) :=
  _ <- inspect_datestring_format date_string ;;
  Ok (strptime date_string).

(** [datestring_to_epoch]. *)
Definition datestring_to_epoch (date_string : string)
    : result (ValueError + Z) :=
  parsed <- datestring_to_datetime date_string ;;
  Ok (match parsed with
      | inr time => inr (datetime_to_epoch time)
      | inl e => inl e
      end).

(** *** [datetime.strftime(TIME_FORMAT)]

    The year, month and day of an ordinal, as [datetime] computes them. *)
Definition DI400Y : Z := 146097.
Definition DI100Y : Z := 36524.
Definition DI4Y : Z := 1461.

Definition ord2ymd (n : Z) : Z * Z * Z :=
  let n := n - 1 in
  let n400 := n / DI400Y in
  let n := n mod DI400Y in
  let year := n400 * 400 + 1 in
  let n100 := n / DI100Y in
  let n := n mod DI100Y in
  let n4 := n / DI4Y in
  let n := n mod DI4Y in
  let n1 := n / 365 in
  let n := n mod 365 in
  let year := year + n100 * 100 + n4 * 4 + n1 in
  if (n1 =? 4) || (n100 =? 4) then (year - 1, 12, 31)
  else
    let leapyear := (n1 =? 3) && (negb (n4 =? 24) || (n100 =? 3)) in
    let month := Z.shiftr (n + 50) 5 in
    let preceding :=
      nth (Z.to_nat (month - 1)) DAYS_BEFORE_MONTH 0
      + (if (2 <? month) && leapyear then 1 else 0) in
    if n <? preceding then
      let month := month - 1 in
      let preceding :=
        preceding - (nth (Z.to_nat month) DAYS_IN_MONTH 0
                     + (if (month =? 2) && leapyear then 1 else 0)) in
      (year, month, n - preceding + 1)
    else (year, month, n - preceding + 1).

Definition digit_char (d : Z) : ascii := ascii_of_N (Z.to_N (48 + d)).

(** A number below 100 in two digits, as [%m], [%d], [%H] and [%M] give
    it. *)
Definition two_digits (n : Z) : string :=
  String (digit_char (n / 10)) (String (digit_char (n mod 10)) EmptyString).

(** A year in decimal, as [%Y] gives it where the C library does not pad
    (from the year 1000 on every platform gives these four digits). *)
Fixpoint decimal_digits (fuel : nat) (n : Z) (tail : string) : string :=
  match fuel with
  | O => tail
  | S fuel' =>
      let tail' := String (digit_char (n mod 10)) tail in
      if n <? 10 then tail' else decimal_digits fuel' (n / 10) tail'
  end.

Definition decimal (n : Z) : string := decimal_digits 4 n EmptyString.

Definition strftime (time : datetime) : string :=
  let '(year, month, day) := ord2ymd (dt_date time) in
  (decimal year
   ++ String "-" (two_digits month
   ++ String "-" (two_digits day
   ++ String "-" (two_digits (dt_hour time)
   ++ String ":" (two_digits (dt_minute time))))))%string.

(** [datetime_to_datestring]. *)
Definition datetime_to_datestring (time : datetime) : string := strftime time.

(* ================================================================= *)
(** ** Reading and recording

    The lines of the log are texts; [float] on a text is taken as it is. *)

Definition WEIGHT_LOG : string := "weight_log.txt".

(** [str.isspace] on one character. *)
Definition isspace (c : ascii) : bool :=
  let n := N_of_ascii c in
  ((9 <=? n) && (n <=? 13) || (28 <=? n) && (n <=? 32)
   || (n =? 133) || (n =? 160))%N.

(** [str.lstrip()] and [str.rstrip()]. *)
Fixpoint lstrip (s : string) : string :=
  match s with
  | String c s' => if isspace c then lstrip s' else s
  | EmptyString => EmptyString
  end.

Fixpoint rstrip (s : string) : string :=
  match s with
  | EmptyString => EmptyString
  | String c s' =>
      match rstrip s' with
      | EmptyString => if isspace c then EmptyString else String c EmptyString
      | kept => String c kept
      end
  end.

(** [str.strip()]. *)
Definition strip (s : string) : string := rstrip (lstrip s).

(** [str.split(sep)] with a separator of one character. *)
Fixpoint split (sep : ascii) (s : string) : list string :=
  match s with
  | EmptyString => [EmptyString]
  | String c s' =>
      if Ascii.eqb c sep then EmptyString :: split sep s'
      else
        match split sep s' with
        | part :: parts => String c part :: parts
        | [] => [String c EmptyString]
        end
  end.

(** The message of [inspect_float]. *)
Definition FLOAT_MESSAGE (x : string) : string :=
  (x ++ " must be a float that represents bodyweight (lbs)")%string.

(** The message of the [else] branch of [parse_log], which formats
    [self.filename]: [None] until a file has been opened. *)
Definition NOT_FOUND_MESSAGE (filename : option string) : string :=
  ("Opening... "
   ++ match filename with Some name => name | None => "None" end
   ++ " : File not found.")%string.

Section Reading.

(** [float] on a text: the number, or nothing where it raises
    [ValueError]. *)
Variable float_of_str : string -> option float.

(** The body of [for line in infile]: the line is stripped, split at its
    commas and unpacked into two names, the first is converted by
    [datestring_to_datetime] and the second by [float].  [Ok (inl e)] is a
    [ValueError] that nothing catches. *)
Definition read_line (line : string) : result (ValueError + LogEntry.t) :=
  match split "," (strip line) with
  | [datestring; weight] =>
      datetime <- datestring_to_datetime datestring ;;
      match datetime with
      | inl e => Ok (inl e)
      | inr datetime =>
          match float_of_str weight with
          | Some weight => Ok (inr (LogEntry.mk datetime weight))
          | None => Ok (inl not_a_float)
          end
      end
  | _ => Ok (inl not_two_values)
  end.

(** The loop, which appends to [self.log_entries]. *)
Fixpoint read_lines (infile : list string) (log_entries : list LogEntry.t)
    : result (ValueError + list LogEntry.t) :=
  match infile with
  | [] => Ok (inr log_entries)
  | line :: infile' =>
      entry <- read_line line ;;
      match entry with
      | inl e => Ok (inl e)
      | inr entry => read_lines infile' (log_entries ++ [entry])
      end
  end.

(** [parse_log] on a file name.  [files] gives the lines of every file
    that exists, as iterating over the open file yields them;
    [self_filename] is [self.filename], which is returned as the call leaves
    it.  What [DEBUG] prints is left out. *)
Definition parse_log_of_file (files : string -> option (list string))
    (self : WeightLog) (self_filename : option string) (filename : string)
    : result (ValueError + WeightLog * option string) :=
  match files filename with
  | Some infile =>
      entries <- read_lines infile [] ;;
      match entries with
      | inl e => Ok (inl e)
      | inr entries =>
          self' <- parse_log self entries ;;
          Ok (inr (self', Some filename))
      end
  | None => Raise (SystemExit (NOT_FOUND_MESSAGE self_filename))
  end.

(** [inspect_float]. *)
Definition inspect_float (x : string) : result float :=
  match float_of_str x with
  | Some v => Ok v
  | None => Raise (SystemExit (FLOAT_MESSAGE x))
  end.

(** [record_weight], up to the row [[date_string, weight]] that it hands to
    the CSV writer. *)
Definition record_weight (date_string weight : string)
    : result (string * float) :=
  _ <- inspect_datestring_format date_string ;;
  weight <- inspect_float weight ;;
  Ok (date_string, weight).

(** [record_current_weight]; [now] is [datetime.now()] cut to the minute,
    which is all that [TIME_FORMAT] shows of it. *)
Definition record_current_weight (now : datetime) (weight : string)
    : result (string * float) :=
  record_weight (datetime_to_datestring now) weight.

End Reading.

(** The entry that the log line [y-m-d-hh:mm,w] parses to. *)
Definition log_line (y m d hh mm : Z) (w : float) : LogEntry.t :=
  LogEntry.mk (mkdatetime (ymd2ord y m d) hh mm) w.

(* ================================================================= *)
(** ** Vocabulary of the statements *)

(** The Sunday that [find_first_sunday] aims at. *)
Definition first_sunday (start_date : date) : date :=
  start_date + (6 - weekday start_date).

(** [n] dates from [d] on, seven days apart. *)
Fixpoint week_steps (n : nat) (d : date) : list date :=
  match n with
  | O => []
  | S n' => d :: week_steps n' (d + 7)
  end.

(** The number of iterations of the loop of [generate_sundays_in_range]
    entered at [d]. *)
Definition n_weeks (d end_date : date) : nat :=
  if d <=? end_date then Z.to_nat ((end_date - d) / 7 + 1) else O.

(** The boundary sequence of the range from [s] to [e]. *)
Definition boundaries (s e : date) : list date :=
  week_steps (n_weeks (first_sunday s) e) (first_sunday s).

(** Consecutive elements are exactly seven days apart. *)
Fixpoint seven_apart (l : list date) : Prop :=
  match l with
  | a :: (b :: _) as l' => b = a + 7 /\ seven_apart l'
  | _ => True
  end.

(** The date range within which the date arithmetic of the program stays
    inside the range of [date]: a week away from both ends. *)
Definition dates_in_range (s e : date) : Prop :=
  MINORD + 7 <= s /\ s <= e /\ e + 7 <= MAXORD.

(** Every date of the log is at least a week inside the range of [date],
    so that no date arithmetic of the program overflows. *)
Definition log_in_range (entries : list LogEntry.t) : Prop :=
  forall x, In x entries ->
    MINORD + 7 <= entry_date x /\ entry_date x + 7 <= MAXORD.

(** [x] is not after [y] under the comparison [ltb]: the order that a
    sorted list keeps between an element and every later one. *)
Definition not_after {A : Type} (ltb : A -> A -> bool) (x y : A) : Prop :=
  ltb y x = false.

(** Sorted ascending by timestamp: no entry is later than one that follows
    it. *)
Definition sorted_by_timestamp (l : list LogEntry.t) : Prop :=
  StronglySorted (not_after LogEntry.lt) l.

(** The weeks the loop goes through: every boundary paired with the lower
    edge it is compared against, which is the boundary before it. *)
Fixpoint weeks (previous_sunday : date) (sundays : list date)
    : list (date * date) :=
  match sundays with
  | [] => []
  | sunday :: sundays' => (previous_sunday, sunday) :: weeks sunday sundays'
  end.

(** The entries that the inner loop selects for a week. *)
Definition bucket (log_entries : list LogEntry.t) (week : date * date)
    : list LogEntry.t :=
  filter (in_week (fst week) (snd week)) log_entries.

(** What one iteration appends to [weekly_averages]. *)
Definition emitted (log_entries : list LogEntry.t) (week : date * date)
    : list WeeklyAverage.t :=
  match bucket log_entries week with
  | [] => []
  | members =>
      [WeeklyAverage.mk (combine (snd week) 23 59)
         (average_weight (map LogEntry.weight members))]
  end.

(** The lower edge of the [i]-th boundary's week: seven days before the
    first boundary, and the boundary before it for the later ones. *)
Definition lower_edge (sundays : list date) (i : nat) : date :=
  match i with
  | O => nth 0 sundays 0 - 7
  | S j => nth j sundays 0
  end.

(** The raw row that [write_to_csv] makes of a log entry. *)
Definition raw_row (x : LogEntry.t) : row :=
  (datetime_to_epoch (LogEntry.datetime x), CFloat (LogEntry.weight x), CStr "").

(** The row that [write_to_csv] makes of a weekly average. *)
Definition average_row (format_1f : float -> string) (wa : WeeklyAverage.t)
    : row :=
  (datetime_to_epoch (WeeklyAverage.datetime wa), CStr "",
   CStr (format_1f (WeeklyAverage.weight wa))).

(** The three-line log of the end-to-end scenario, and the object that
    [parse_log] makes of it. *)
Definition scenario_entries : list LogEntry.t :=
  [log_line 2023 1 2 8 0 150; log_line 2023 1 3 8 0 151;
   log_line 2023 1 9 8 0 149].

Definition scenario_log : WeightLog :=
  mkWeightLog (Some 3%nat) (Some (ymd2ord 2023 1 2)) (Some (ymd2ord 2023 1 9))
    scenario_entries [].



(** The [Date] of a row. *)
Definition row_date (r : row) : Z := fst (fst r).

(** Sorted ascending by [Date]. *)
Definition sorted_by_date (rows : list row) : Prop :=
  StronglySorted (fun a b => row_date a <= row_date b) rows.

(** An entry and a weekly average of the object fall on the same instant. *)
Definition shared_instant (self : WeightLog) : Prop :=
  exists (x : LogEntry.t) (wa : WeeklyAverage.t),
    In x (log_entries self) /\ In wa (weekly_averages self)
    /\ datetime_to_epoch (LogEntry.datetime x)
       = datetime_to_epoch (WeeklyAverage.datetime wa).

(** The comparison [lt] answers for [a] and [b], in agreement with the
    order of their keys. *)
Definition agrees {A : Type} (lt : A -> A -> result bool) (key : A -> Z)
    (a b : A) : Prop :=
  exists r : bool,
    lt a b = Ok r /\ (if r then key a <= key b else key b <= key a).

(** A raw row of the entries, and the row of an average that falls on the
    instant of none of the entries. *)
Definition raw_of (entries : list LogEntry.t) (r : row) : Prop :=
  exists x, In x entries /\ r = raw_row x.

Definition free_average_of (format_1f : float -> string)
    (entries : list LogEntry.t) (r : row) : Prop :=
  exists wa, r = average_row format_1f wa
             /\ forall x, In x entries ->
                   datetime_to_epoch (LogEntry.datetime x)
                   <> datetime_to_epoch (WeeklyAverage.datetime wa).

(** The hour and the minute of a datetime are those of a time of day. *)
Definition valid_time (t : datetime) : Prop :=
  0 <= dt_hour t < 24 /\ 0 <= dt_minute t < 60.

(** The entries of the log were all made at a time of day. *)
Definition valid_times (entries : list LogEntry.t) : Prop :=
  forall x, In x entries -> valid_time (LogEntry.datetime x).

(** The entry was made at the instant [t]. *)
Definition made_at (t : datetime) (x : LogEntry.t) : bool :=
  (dt_date (LogEntry.datetime x) =? dt_date t)
  && (dt_hour (LogEntry.datetime x) =? dt_hour t)
  && (dt_minute (LogEntry.datetime x) =? dt_minute t).

(** The entry was logged at 23:59 on a Sunday, the instant at which a week
    ends. *)
Definition logged_at_week_end (x : LogEntry.t) : Prop :=
  weekday (entry_date x) = 6
  /\ dt_hour (LogEntry.datetime x) = 23
  /\ dt_minute (LogEntry.datetime x) = 59.

(** [f] holds of the [fuel] integers from [n] on. *)
Fixpoint all_upto (f : Z -> bool) (fuel : nat) (n : Z) : bool :=
  match fuel with
  | O => true
  | S fuel' => f n && all_upto f fuel' (n + 1)
  end.

(** The year, month and day of the ordinal [n] are a calendar date, and
    its ordinal is [n]. *)
Definition ymd_checks (n : Z) : bool :=
  let '(y, m, d) := ord2ymd n in
  (ymd2ord y m d =? n)
  && (1 <=? m) && (m <=? 12) && (1 <=? d) && (d <=? days_in_month y m).

(** The [year] of a datetime. *)
Definition year_of (t : datetime) : Z := fst (fst (ord2ymd (dt_date t))).

(** The least and the greatest number of characters that a match of an
    expression takes. *)
Fixpoint min_len (r : regex) : nat :=
  match r with
  | Eps => 0
  | Lit _ | Range _ _ => 1
  | Cat r1 r2 => min_len r1 + min_len r2
  | Alt r1 r2 => Nat.min (min_len r1) (min_len r2)
  | Group _ r' => min_len r'
  end.

Fixpoint max_len (r : regex) : nat :=
  match r with
  | Eps => 0
  | Lit _ | Range _ _ => 1
  | Cat r1 r2 => max_len r1 + max_len r2
  | Alt r1 r2 => Nat.max (max_len r1) (max_len r2)
  | Group _ r' => max_len r'
  end.

(** How often the character [c] stands in a text. *)
Fixpoint count (c : ascii) (s : string) : nat :=
  match s with
  | EmptyString => 0
  | String x s' => (if Ascii.eqb x c then 1 else 0) + count c s'
  end.

(** No match of the expression holds the character [c]. *)
Fixpoint avoids (c : ascii) (r : regex) : bool :=
  match r with
  | Eps => true
  | Lit x => negb (Ascii.eqb x c)
  | Range lo hi => negb (in_range lo hi c)
  | Cat r1 r2 | Alt r1 r2 => avoids c r1 && avoids c r2
  | Group _ r' => avoids c r'
  end.

(** An entry as the reading loop can make it: its date is one of [date] and
    its time is a time of day. *)
Definition read_well (x : LogEntry.t) : Prop :=
  valid_date (entry_date x) /\ valid_time (LogEntry.datetime x).

(** Case analysis on the integer comparisons in sight. *)
Ltac zcases :=
  repeat match goal with
    | |- context [?a =? ?b] => destruct (Z.eqb_spec a b)
    | |- context [?a <? ?b] => destruct (Z.ltb_spec a b)
    | |- context [?a <=? ?b] => destruct (Z.leb_spec a b)
    | H : context [?a =? ?b] |- _ => destruct (Z.eqb_spec a b)
    | H : context [?a <? ?b] |- _ => destruct (Z.ltb_spec a b)
    | H : context [?a <=? ?b] |- _ => destruct (Z.leb_spec a b)
    end.

(** Closed facts about concrete dates. *)
Ltac closed_dates := repeat split; vm_compute; discriminate.

(** Case analysis on a decimal digit. *)
Ltac split_digit a :=
  let H := fresh "H" in
  assert (H : a = 0 \/ a = 1 \/ a = 2 \/ a = 3 \/ a = 4 \/ a = 5 \/ a = 6
              \/ a = 7 \/ a = 8 \/ a = 9) by lia;
  destruct H as [-> | [-> | [-> | [-> | [-> | [-> | [-> | [-> | [-> | ->]]]]]]]]].

(* ================================================================= *)
(** ** Dates and the boundary sequence *)

Lemma weekday_bounds (d : date) : 0 <= weekday d < 7.
Proof. unfold weekday. apply Z.mod_pos_bound. lia. Qed.

Lemma weekday_same_week (a b : date) :
  weekday a = weekday b -> a <= b < a + 7 -> b = a.
Proof.
  unfold weekday. intros Hw Hab.
  pose proof (Z.div_mod (a + 6) 7 ltac:(lia)) as Ha.
  pose proof (Z.div_mod (b + 6) 7 ltac:(lia)) as Hb.
  pose proof (Z.mod_pos_bound (a + 6) 7 ltac:(lia)).
  lia.
Qed.

Lemma date_add_days_ok (d : date) (n : Z) :
  MINORD <= d + n <= MAXORD -> date_add_days d n = Ok (d + n).
Proof.
  intros [H1 H2]. unfold date_add_days. cbv zeta.
  apply Z.leb_le in H1. apply Z.leb_le in H2. now rewrite H1, H2.
Qed.

Lemma first_sunday_bounds (d : date) : d <= first_sunday d <= d + 6.
Proof. unfold first_sunday. pose proof (weekday_bounds d). lia. Qed.

Lemma first_sunday_weekday (d : date) : weekday (first_sunday d) = 6.
Proof.
  unfold first_sunday, weekday.
  pose proof (Z.div_mod (d + 6) 7 ltac:(lia)) as Hd.
  pose proof (Z.mod_pos_bound (d + 6) 7 ltac:(lia)) as Hb.
  replace (d + (6 - (d + 6) mod 7) + 6) with (6 + ((d + 6) / 7) * 7) by lia.
  rewrite Z.mod_add by lia. reflexivity.
Qed.

Lemma find_first_sunday_ok (d : date) :
  MINORD <= d -> d + 6 <= MAXORD -> find_first_sunday d = Ok (first_sunday d).
Proof.
  intros H1 H2. unfold find_first_sunday. cbv zeta.
  apply date_add_days_ok. pose proof (first_sunday_bounds d).
  unfold first_sunday in *. lia.
Qed.

Lemma n_weeks_step (d end_date : date) :
  d <= end_date -> n_weeks d end_date = S (n_weeks (d + 7) end_date).
Proof.
  intros H. unfold n_weeks.
  apply Z.leb_le in H as H'. rewrite H'.
  destruct (d + 7 <=? end_date) eqn:E.
  - apply Z.leb_le in E.
    replace (end_date - d) with ((end_date - (d + 7)) + 1 * 7) by lia.
    rewrite Z.div_add by lia.
    pose proof (Z.div_pos (end_date - (d + 7)) 7 ltac:(lia) ltac:(lia)).
    lia.
  - apply Z.leb_gt in E.
    rewrite Z.div_small by lia. reflexivity.
Qed.

Lemma n_weeks_none (d end_date : date) : end_date < d -> n_weeks d end_date = O.
Proof. intros H. unfold n_weeks. apply Z.leb_gt in H. now rewrite H. Qed.

Lemma sundays_loop_spec (fuel : nat) :
  forall (d end_date : date) (sundays : list date),
    MINORD <= d -> end_date + 7 <= MAXORD ->
    (Z.to_nat (end_date - d + 1) <= fuel)%nat ->
    sundays_loop fuel d end_date sundays
    = Ok (sundays ++ week_steps (n_weeks d end_date) d).
Proof.
  induction fuel as [|fuel IH]; intros d end_date sundays Hd He Hf.
  - simpl. destruct (d <=? end_date) eqn:E.
    + apply Z.leb_le in E. lia.
    + apply Z.leb_gt in E. rewrite n_weeks_none by lia.
      simpl. now rewrite app_nil_r.
  - simpl. destruct (d <=? end_date) eqn:E.
    + apply Z.leb_le in E.
      rewrite date_add_days_ok by lia. simpl.
      rewrite IH by lia.
      rewrite (n_weeks_step d end_date E). simpl.
      now rewrite <- app_assoc.
    + apply Z.leb_gt in E. rewrite n_weeks_none by lia.
      simpl. now rewrite app_nil_r.
Qed.

Lemma week_steps_In (n : nat) :
  forall (d x : date),
    In x (week_steps n d) <->
    exists k : nat, (k < n)%nat /\ x = d + 7 * Z.of_nat k.
Proof.
  induction n as [|n IH]; intros d x; cbn [week_steps In].
  - split; [tauto | intros (k & Hk & _); lia].
  - rewrite IH. split.
    + intros [<- | (k & Hk & ->)].
      * exists O. split; lia.
      * exists (S k). split; lia.
    + intros (k & Hk & ->). destruct k as [|k].
      * left. lia.
      * right. exists k. split; lia.
Qed.

Lemma n_weeks_lt (d end_date : date) (k : nat) :
  (k < n_weeks d end_date)%nat <-> d + 7 * Z.of_nat k <= end_date.
Proof.
  unfold n_weeks. destruct (d <=? end_date) eqn:E.
  - apply Z.leb_le in E.
    pose proof (Z.div_pos (end_date - d) 7 ltac:(lia) ltac:(lia)) as Hq.
    pose proof (Z.div_mod (end_date - d) 7 ltac:(lia)) as Hdm.
    pose proof (Z.mod_pos_bound (end_date - d) 7 ltac:(lia)) as Hr.
    set (q := (end_date - d) / 7) in *.
    set (r := (end_date - d) mod 7) in *.
    rewrite Z2Nat.inj_add, Nat.add_1_r by lia.
    split; intros Hk; lia.
  - apply Z.leb_gt in E. split; intros; lia.
Qed.

Lemma weekday_steps (d : date) (k : nat) :
  weekday (d + 7 * Z.of_nat k) = weekday d.
Proof.
  unfold weekday.
  replace (d + 7 * Z.of_nat k + 6) with (d + 6 + Z.of_nat k * 7) by lia.
  apply Z.mod_add. lia.
Qed.

Lemma same_weekday_steps (d x : date) :
  d <= x -> weekday x = weekday d -> exists k : nat, x = d + 7 * Z.of_nat k.
Proof.
  unfold weekday. intros Hle Hw.
  pose proof (Z.div_mod (d + 6) 7 ltac:(lia)) as Hd.
  pose proof (Z.div_mod (x + 6) 7 ltac:(lia)) as Hx.
  exists (Z.to_nat ((x + 6) / 7 - (d + 6) / 7)).
  pose proof (Z.mod_pos_bound (d + 6) 7 ltac:(lia)).
  assert ((d + 6) / 7 <= (x + 6) / 7) by (apply Z.div_le_mono; lia).
  lia.
Qed.

(** Membership in the loop's result: the dates of the weekday of [d] from
    [d] up to [end_date]. *)
Lemma week_steps_range (d end_date x : date) :
  In x (week_steps (n_weeks d end_date) d) <->
  d <= x <= end_date /\ weekday x = weekday d.
Proof.
  rewrite week_steps_In. split.
  - intros (k & Hk & ->). apply n_weeks_lt in Hk.
    rewrite weekday_steps. split; [lia | reflexivity].
  - intros [[H1 H2] Hw].
    destruct (same_weekday_steps d x H1 Hw) as [k ->].
    exists k. split; [apply n_weeks_lt; lia | reflexivity].
Qed.

Lemma week_steps_seven_apart (n : nat) (d : date) : seven_apart (week_steps n d).
Proof.
  revert d. induction n as [|n IH]; intros d; simpl; [exact I|].
  destruct n as [|n]; simpl; [exact I|].
  split; [reflexivity | apply (IH (d + 7))].
Qed.

Lemma week_steps_last (n : nat) :
  forall d dflt : date,
    last (week_steps (S n) d) dflt = d + 7 * Z.of_nat n.
Proof.
  induction n as [|n IH]; intros d dflt.
  - simpl. lia.
  - change (week_steps (S (S n)) d) with (d :: week_steps (S n) (d + 7)).
    change (last (d :: week_steps (S n) (d + 7)) dflt)
      with (last (week_steps (S n) (d + 7)) dflt).
    rewrite IH. lia.
Qed.

Lemma sundays_loop_has_fuel (fuel : nat) :
  forall (d end_date : date) (sundays : list date),
    (Z.to_nat (end_date - d + 1) <= fuel)%nat ->
    sundays_loop fuel d end_date sundays <> Raise OutOfFuel.
Proof.
  induction fuel as [|fuel IH]; intros d end_date sundays Hf; cbn [sundays_loop];
    destruct (Z.leb_spec d end_date) as [Hle|Hgt]; try discriminate; [lia|].
  unfold date_add_days. cbv zeta.
  destruct ((MINORD <=? d + 7) && (d + 7 <=? MAXORD)); [|discriminate].
  cbn [bind]. apply IH. lia.
Qed.

(** The loop of [generate_sundays_in_range] never runs out of fuel, whatever
    the dates. *)
Lemma generate_sundays_in_range_has_fuel (start_date end_date : date) :
  generate_sundays_in_range start_date end_date <> Raise OutOfFuel.
Proof.
  unfold generate_sundays_in_range, find_first_sunday, date_add_days. cbv zeta.
  destruct (_ && _); [|discriminate].
  cbn [bind]. apply sundays_loop_has_fuel. lia.
Qed.

(** [generate_sundays_in_range] returns for dates a week inside the range
    of [date]. *)
Lemma generate_sundays_in_range_fuel (start_date end_date : date) :
  MINORD <= start_date -> start_date <= end_date -> end_date + 7 <= MAXORD ->
  generate_sundays_in_range start_date end_date
  = Ok (week_steps (n_weeks (first_sunday start_date) end_date)
          (first_sunday start_date)).
Proof.
  intros H1 H2 H3. unfold generate_sundays_in_range.
  rewrite find_first_sunday_ok by lia. simpl.
  pose proof (first_sunday_bounds start_date).
  rewrite sundays_loop_spec by lia. reflexivity.
Qed.

(** At the ends of the range of [date] the date arithmetic overflows: in
    the last week of the year 9999 the loop steps past [date.max], and in
    the first week of the year 1 the lower edge of the first bucket falls
    before [date.min]. *)
Example generate_overflows_in_the_last_week :
  generate_sundays_in_range (ymd2ord 9999 12 1) (ymd2ord 9999 12 31)
  = Raise OverflowError.
Proof. reflexivity. Qed.

Example compute_overflows_in_the_first_week :
  let entries := [log_line 1 1 1 8 0 150; log_line 1 1 7 8 0 151] in
  let self := mkWeightLog (Some 2%nat) (Some (ymd2ord 1 1 1))
                (Some (ymd2ord 1 1 7)) entries [] in
  parse_log init entries = Ok self
  /\ generate_sundays_in_range (ymd2ord 1 1 1) (ymd2ord 1 1 7)
     = Ok [ymd2ord 1 1 7]
  /\ compute_weekly_averages self = Raise OverflowError.
Proof. cbv zeta. repeat split; vm_compute; reflexivity. Qed.

(** Whatever the loop returns extends the list it was entered with. *)
Lemma sundays_loop_prefix (fuel : nat) :
  forall (d end_date : date) (sundays l : list date),
    sundays_loop fuel d end_date sundays = Ok l ->
    exists l', l = sundays ++ l'.
Proof.
  induction fuel as [|fuel IH]; intros d end_date sundays l; simpl;
    destruct (d <=? end_date); try discriminate.
  - intros [= <-]. exists []. now rewrite app_nil_r.
  - destruct (date_add_days d 7) as [d'|]; simpl; [|discriminate].
    intros H. apply IH in H as [l' ->].
    exists (d :: l'). now rewrite <- app_assoc.
  - intros [= <-]. exists []. now rewrite app_nil_r.
Qed.

(* ================================================================= *)
(** ** C2: a Sunday start date *)

(** C2.  When the start date already falls on a Sunday, [find_first_sunday]
    returns the start date itself (a zero-day offset, not the Sunday seven
    days later), and every boundary sequence generated from it up to a later
    or equal end date begins with the start date. *)
Theorem C2_sunday_start_is_first_boundary (start_date : date) :
  valid_date start_date ->
  weekday start_date = 6 ->
  find_first_sunday start_date = Ok start_date /\
  forall (end_date : date) (sundays : list date),
    start_date <= end_date ->
    generate_sundays_in_range start_date end_date = Ok sundays ->
    hd_error sundays = Some start_date.
Proof.
  intros Hv Hw.
  assert (Hf : find_first_sunday start_date = Ok start_date).
  { unfold find_first_sunday. cbv zeta. rewrite Hw.
    rewrite date_add_days_ok; [f_equal; lia | unfold valid_date in Hv; lia]. }
  split; [exact Hf|].
  intros end_date sundays Hle. unfold generate_sundays_in_range.
  rewrite Hf. simpl.
  destruct (Z.to_nat (end_date - start_date + 1)) as [|fuel] eqn:Ef; [lia|].
  simpl. apply Z.leb_le in Hle. rewrite Hle.
  destruct (date_add_days start_date 7) as [d'|]; simpl; [|discriminate].
  intros H. apply sundays_loop_prefix in H as [l' ->]. reflexivity.
Qed.

Lemma C2_sunday_start_witness :
  let sunday := ymd2ord 2023 1 1 in
  (valid_date sunday /\ weekday sunday = 6) /\
  find_first_sunday sunday = Ok sunday /\
  forall (end_date : date) (sundays : list date),
    sunday <= end_date ->
    generate_sundays_in_range sunday end_date = Ok sundays ->
    hd_error sundays = Some sunday.
Proof.
  split.
  - split; [unfold valid_date; vm_compute; split; discriminate | reflexivity].
  - apply (C2_sunday_start_is_first_boundary (ymd2ord 2023 1 1)).
    + unfold valid_date; vm_compute; split; discriminate.
    + reflexivity.
Defined.

(* ================================================================= *)
(** ** Sorting with a comparison that does not raise *)

Section SortAny.
Context {A : Type} (lt : A -> A -> result bool).

(** Whenever the sort returns, it returns a rearrangement of its input. *)
Lemma insert_perm (pivot : A) :
  forall sorted l,
    insert lt pivot sorted = Ok l -> Permutation (pivot :: sorted) l.
Proof.
  induction sorted as [|x rest IH]; cbn [insert]; intros l.
  - intros [= <-]. apply Permutation_refl.
  - destruct (lt pivot x) as [[|]|]; [| |discriminate].
    + intros [= <-]. apply Permutation_refl.
    + destruct (insert lt pivot rest) as [rest'|]; [|discriminate].
      intros [= <-]. rewrite perm_swap. constructor. now apply IH.
Qed.

Lemma sort_from_perm (l : list A) :
  forall sorted r,
    sort_from lt sorted l = Ok r -> Permutation (sorted ++ l) r.
Proof.
  induction l as [|pivot l IH]; intros sorted r; cbn [sort_from].
  - intros [= <-]. now rewrite app_nil_r.
  - destruct (insert lt pivot sorted) as [s'|] eqn:Hi; [|discriminate].
    intros H. apply IH in H. rewrite <- H.
    apply insert_perm in Hi. rewrite <- Hi. symmetry. apply Permutation_middle.
Qed.

Lemma list_sort_perm (l r : list A) : list_sort lt l = Ok r -> Permutation l r.
Proof. apply (sort_from_perm l []). Qed.

End SortAny.

Section SortTotal.
Context {A : Type} (ltb : A -> A -> bool).

Hypothesis ltb_asym : forall x y, ltb x y = true -> ltb y x = false.
Hypothesis not_after_trans :
  forall x y z, not_after ltb x y -> not_after ltb y z -> not_after ltb x z.

Local Abbreviation lt := (fun a b : A => Ok (ltb a b)).

Lemma insert_returns (pivot : A) (sorted : list A) :
  exists l, insert lt pivot sorted = Ok l.
Proof.
  induction sorted as [|x rest [l IH]]; cbn [insert]; [eauto|].
  destruct (ltb pivot x); [eauto|].
  rewrite IH. eauto.
Qed.

Lemma insert_sorted (pivot : A) :
  forall sorted l,
    StronglySorted (not_after ltb) sorted ->
    insert lt pivot sorted = Ok l ->
    StronglySorted (not_after ltb) l.
Proof.
  induction sorted as [|x rest IH]; cbn [insert]; intros l Hs.
  - intros [= <-]. repeat constructor.
  - destruct (ltb pivot x) eqn:E.
    + intros [= <-]. constructor; [exact Hs|].
      apply ltb_asym in E.
      constructor; [exact E|].
      inversion Hs as [|? ? _ Hall]; subst.
      eapply Forall_impl; [|exact Hall].
      intros z Hz. eapply not_after_trans; eauto.
    + destruct (insert lt pivot rest) as [rest'|] eqn:Ei; [|discriminate].
      intros [= <-]. inversion Hs as [|? ? Hrest Hall]; subst.
      constructor; [now apply IH|].
      apply insert_perm in Ei.
      eapply Permutation_Forall; [exact Ei|].
      constructor; assumption.
Qed.

Lemma sort_from_spec (l : list A) :
  forall sorted,
    StronglySorted (not_after ltb) sorted ->
    exists r, sort_from lt sorted l = Ok r
              /\ Permutation (sorted ++ l) r
              /\ StronglySorted (not_after ltb) r.
Proof.
  induction l as [|pivot l IH]; intros sorted Hs; cbn [sort_from].
  - exists sorted. rewrite app_nil_r. auto.
  - destruct (insert_returns pivot sorted) as [s' Hi]. rewrite Hi.
    destruct (IH s' (insert_sorted _ _ _ Hs Hi)) as (r & Hr & Hp & Hsr).
    exists r. repeat split; try assumption.
    apply (sort_from_perm lt (pivot :: l) sorted r).
    cbn [sort_from]. now rewrite Hi.
Qed.

Lemma list_sort_spec (l : list A) :
  exists r, list_sort lt l = Ok r
            /\ Permutation l r
            /\ StronglySorted (not_after ltb) r.
Proof.
  destruct (sort_from_spec l [] (SSorted_nil _)) as (r & Hr & Hp & Hs).
  exists r. auto.
Qed.

End SortTotal.

(* ================================================================= *)
(** ** The order of datetimes *)

Lemma datetime_lt_asym (a b : datetime) :
  datetime_lt a b = true -> datetime_lt b a = false.
Proof. unfold datetime_lt. zcases; intros; try reflexivity; try discriminate; lia. Qed.

Lemma datetime_not_after_trans (a b c : datetime) :
  datetime_lt b a = false -> datetime_lt c b = false -> datetime_lt c a = false.
Proof.
  unfold datetime_lt. zcases; intros; try reflexivity; try discriminate; lia.
Qed.

Lemma datetime_not_after_date (a b : datetime) :
  datetime_lt b a = false -> dt_date a <= dt_date b.
Proof. unfold datetime_lt. zcases; intros; try discriminate; lia. Qed.

Lemma sorted_by_timestamp_dates (first : LogEntry.t) (rest : list LogEntry.t) :
  sorted_by_timestamp (first :: rest) ->
  forall e, In e (first :: rest) -> entry_date first <= entry_date e.
Proof.
  intros Hs e [<- | He]; [lia|].
  inversion Hs as [|? ? _ Hall]; subst.
  rewrite Forall_forall in Hall.
  apply datetime_not_after_date. apply (Hall e He).
Qed.

Lemma last_In {A : Type} (l : list A) (dflt : A) :
  l <> [] -> In (last l dflt) l.
Proof.
  intros Hl. destruct (exists_last Hl) as (l' & z & ->).
  rewrite last_last. apply in_or_app. right. now left.
Qed.

Lemma sorted_by_timestamp_last (l : list LogEntry.t) :
  sorted_by_timestamp l ->
  forall e dflt, In e l -> entry_date e <= entry_date (last l dflt).
Proof.
  induction l as [|a l IH]; intros Hs e dflt; [intros []|].
  inversion Hs as [|? ? Hl Hall]; subst.
  destruct l as [|b l].
  - intros [<- | []]. simpl. lia.
  - change (last (a :: b :: l) dflt) with (last (b :: l) dflt).
    intros [<- | He]; [|now apply IH].
    rewrite Forall_forall in Hall.
    apply datetime_not_after_date, Hall, last_In. discriminate.
Qed.

(* ================================================================= *)
(** ** Loading the log *)

Lemma parse_log_empty (self : WeightLog) :
  parse_log self [] = Raise (SystemExit EMPTY_LOG_MESSAGE).
Proof. reflexivity. Qed.

(** What [parse_log] leaves in the object when the log has an entry. *)
Lemma parse_log_nonempty (self : WeightLog) (entries : list LogEntry.t) :
  entries <> [] ->
  exists (sorted : list LogEntry.t) (first : LogEntry.t),
    parse_log self entries
    = Ok (mkWeightLog (Some (List.length entries))
            (Some (entry_date first))
            (Some (entry_date (last sorted first)))
            sorted (weekly_averages self))
    /\ Permutation entries sorted
    /\ sorted_by_timestamp sorted
    /\ hd_error sorted = Some first.
Proof.
  intros Hne. unfold parse_log. cbv zeta.
  destruct (Z.leb_spec (Z.of_nat (List.length entries)) 0) as [Hl|Hl].
  { destruct entries; [congruence | simpl in Hl; lia]. }
  destruct (list_sort_spec LogEntry.lt
              (fun x y => datetime_lt_asym _ _)
              (fun x y z => datetime_not_after_trans _ _ _) entries)
    as (sorted & Hs & Hp & Hsorted).
  rewrite Hs. simpl.
  destruct sorted as [|first rest].
  { apply Permutation_sym, Permutation_nil in Hp. congruence. }
  exists (first :: rest), first. auto.
Qed.

(** The invariant that [parse_log] establishes and the later stages rely
    on: the date range is that of the entries. *)
Lemma parse_log_range (self wl : WeightLog) (entries : list LogEntry.t) :
  parse_log self entries = Ok wl ->
  exists s e : date,
    start_date wl = Some s /\ end_date wl = Some e /\ s <= e
    /\ (forall x, In x (log_entries wl) -> s <= entry_date x <= e)
    /\ (exists x, In x (log_entries wl) /\ entry_date x = s)
    /\ (exists x, In x (log_entries wl) /\ entry_date x = e)
    /\ Permutation entries (log_entries wl)
    /\ sorted_by_timestamp (log_entries wl)
    /\ weekly_averages wl = weekly_averages self.
Proof.
  intros H. destruct entries as [|a entries]; [discriminate|].
  destruct (parse_log_nonempty self (a :: entries) ltac:(discriminate))
    as (sorted & first & Hp & Hperm & Hs & Hhd).
  rewrite Hp in H. injection H as <-. simpl.
  destruct sorted as [|f rest]; [discriminate|].
  injection Hhd as ->.
  exists (entry_date first), (entry_date (last (first :: rest) first)).
  repeat split; try assumption; try reflexivity.
  - apply (sorted_by_timestamp_dates first rest Hs). apply last_In. discriminate.
  - now apply (sorted_by_timestamp_dates first rest Hs).
  - now apply sorted_by_timestamp_last.
  - exists first. split; [now left | reflexivity].
  - exists (last (first :: rest) first). split; [apply last_In; discriminate | reflexivity].
Qed.

(** C8.  [parse_log] fails, with the empty-log error, exactly when there is
    no entry; otherwise it succeeds, the collection it stores holds the same
    entries sorted ascending by timestamp, [start_date] and [end_date] are
    the calendar dates of the first and of the last sorted entry, and
    [start_date <= end_date]. *)
Theorem C8_parse_log_sorts_and_sets_range
    (self : WeightLog) (entries : list LogEntry.t) :
  match entries with
  | [] => parse_log self entries = Raise (SystemExit EMPTY_LOG_MESSAGE)
  | _ :: _ =>
      exists (wl : WeightLog) (first final : LogEntry.t),
        parse_log self entries = Ok wl
        /\ Permutation entries (log_entries wl)
        /\ sorted_by_timestamp (log_entries wl)
        /\ hd_error (log_entries wl) = Some first
        /\ last (log_entries wl) first = final
        /\ start_date wl = Some (entry_date first)
        /\ end_date wl = Some (entry_date final)
        /\ entry_date first <= entry_date final
  end.
Proof.
  destruct entries as [|a entries]; [reflexivity|].
  destruct (parse_log_nonempty self (a :: entries) ltac:(discriminate))
    as (sorted & first & Hp & Hperm & Hs & Hhd).
  eexists _, first, (last sorted first).
  split; [exact Hp|]. simpl.
  repeat split; try assumption.
  destruct sorted as [|f rest]; [discriminate|].
  injection Hhd as ->.
  apply (sorted_by_timestamp_dates first rest Hs). apply last_In. discriminate.
Qed.

(* ================================================================= *)
(** ** The weekly loop *)

Lemma total_weight_spec (log_entries : list LogEntry.t)
    (previous_sunday sunday : date) :
  total_weight log_entries previous_sunday sunday
  = map LogEntry.weight (bucket log_entries (previous_sunday, sunday)).
Proof.
  unfold total_weight, bucket. cbn [fst snd].
  enough (H : forall acc,
             fold_left
               (fun total_weight entry =>
                  if in_week previous_sunday sunday entry
                  then total_weight ++ [LogEntry.weight entry]
                  else total_weight) log_entries acc
             = acc ++ map LogEntry.weight
                        (filter (in_week previous_sunday sunday) log_entries))
    by apply (H []).
  induction log_entries as [|x l IH]; intros acc; cbn [fold_left filter].
  - now rewrite app_nil_r.
  - rewrite IH. destruct (in_week previous_sunday sunday x); [|reflexivity].
    cbn [map]. now rewrite <- app_assoc.
Qed.

Lemma weeks_loop_spec (log_entries : list LogEntry.t) (sundays : list date) :
  forall (previous_sunday : date) (averages : list WeeklyAverage.t),
    weeks_loop log_entries previous_sunday sundays averages
    = averages ++ flat_map (emitted log_entries) (weeks previous_sunday sundays).
Proof.
  induction sundays as [|sunday sundays IH]; intros previous_sunday averages.
  - simpl. now rewrite app_nil_r.
  - cbn [weeks_loop weeks flat_map]. rewrite IH, total_weight_spec.
    unfold emitted at 2.
    destruct (bucket log_entries (previous_sunday, sunday)) as [|m ms].
    + reflexivity.
    + cbn [map List.length Nat.ltb Nat.leb snd]. now rewrite <- app_assoc.
Qed.

Lemma weeks_nth (sundays : list date) :
  forall (previous_sunday : date) (i : nat) (b : date),
    nth_error sundays i = Some b ->
    nth_error (weeks previous_sunday sundays) i
    = Some (match i with O => previous_sunday | S j => nth j sundays 0 end, b).
Proof.
  induction sundays as [|a sundays IH]; intros p i b; [destruct i; discriminate|].
  destruct i as [|i]; cbn [nth_error weeks].
  - now intros [= ->].
  - intros H. rewrite (IH a i b H). destruct i; reflexivity.
Qed.

Lemma weeks_In (sundays : list date) :
  forall (previous_sunday : date) (w : date * date),
    In w (weeks previous_sunday sundays) ->
    exists i, nth_error sundays i = Some (snd w)
              /\ fst w = match i with O => previous_sunday | S j => nth j sundays 0 end.
Proof.
  induction sundays as [|a sundays IH]; intros p w; [intros []|].
  cbn [weeks]. intros [<- | H].
  - exists O. split; reflexivity.
  - destruct (IH a w H) as (i & Hi & Hf).
    exists (S i). split; [exact Hi|]. rewrite Hf. destruct i; reflexivity.
Qed.

Lemma in_week_spec (previous_sunday sunday : date) (x : LogEntry.t) :
  in_week previous_sunday sunday x = true
  <-> previous_sunday < entry_date x <= sunday.
Proof.
  unfold in_week. rewrite andb_true_iff, Z.ltb_lt, Z.leb_le. tauto.
Qed.

Lemma week_steps_nth (n : nat) :
  forall (d : date) (i : nat),
    (i < n)%nat -> nth i (week_steps n d) 0 = d + 7 * Z.of_nat i.
Proof.
  induction n as [|n IH]; intros d i Hi; [lia|].
  destruct i as [|i]; cbn [week_steps nth]; [lia|].
  rewrite IH by lia. lia.
Qed.

Lemma week_steps_length (n : nat) (d : date) : List.length (week_steps n d) = n.
Proof. revert d. induction n as [|n IH]; intros d; simpl; [|rewrite IH]; reflexivity. Qed.

Lemma week_steps_nth_error (n : nat) (d : date) (i : nat) (b : date) :
  nth_error (week_steps n d) i = Some b <->
  (i < n)%nat /\ b = d + 7 * Z.of_nat i.
Proof.
  split.
  - intros H.
    assert (Hi : (i < n)%nat).
    { rewrite <- (week_steps_length n d). apply nth_error_Some. congruence. }
    split; [exact Hi|].
    apply nth_error_nth with (d := 0) in H.
    rewrite week_steps_nth in H by exact Hi. lia.
  - intros [Hi ->]. rewrite <- (week_steps_nth n) by exact Hi.
    apply nth_error_nth'. now rewrite week_steps_length.
Qed.

(** The lower edge of every week of a boundary sequence is seven days
    before its boundary. *)
Lemma lower_edge_week_steps (n : nat) (d : date) (i : nat) :
  (i < n)%nat -> lower_edge (week_steps n d) i = d + 7 * Z.of_nat i - 7.
Proof.
  intros Hi. destruct i as [|i]; unfold lower_edge.
  - rewrite week_steps_nth by lia. lia.
  - rewrite week_steps_nth by lia. lia.
Qed.

Lemma compute_weekly_averages_spec (self : WeightLog) (s e : date) :
  start_date self = Some s -> end_date self = Some e ->
  dates_in_range s e ->
  generate_sundays_in_range s e = Ok (boundaries s e)
  /\ compute_weekly_averages self
     = Ok (mkWeightLog (num_entries self) (Some s) (Some e) (log_entries self)
             (weekly_averages self
              ++ flat_map (emitted (log_entries self))
                   (weeks (first_sunday s - 7) (boundaries s e))),
           match boundaries s e with [] => [SPAN_MESSAGE] | _ => [] end).
Proof.
  intros Hs He (H1 & H2 & H3).
  assert (Hg : generate_sundays_in_range s e = Ok (boundaries s e)).
  { apply generate_sundays_in_range_fuel; unfold MINORD in *; lia. }
  split; [exact Hg|].
  unfold compute_weekly_averages. rewrite Hs, He, Hg. cbn [bind].
  destruct (boundaries s e) as [|first rest] eqn:Eb.
  - simpl. rewrite app_nil_r. destruct self; simpl in *. now subst.
  - assert (first = first_sunday s) as ->.
    { unfold boundaries in Eb.
      destruct (n_weeks (first_sunday s) e); simpl in Eb; congruence. }
    pose proof (first_sunday_bounds s).
    rewrite date_add_days_ok by (unfold MINORD, MAXORD in *; lia).
    cbn [bind]. rewrite weeks_loop_spec.
    replace (first_sunday s + -7) with (first_sunday s - 7) by lia.
    reflexivity.
Qed.

Lemma emitted_In (log_entries : list LogEntry.t) (week : date * date)
    (wa : WeeklyAverage.t) :
  In wa (emitted log_entries week) <->
  bucket log_entries week <> []
  /\ wa = WeeklyAverage.mk (combine (snd week) 23 59)
            (average_weight (map LogEntry.weight (bucket log_entries week))).
Proof.
  unfold emitted. destruct (bucket log_entries week) as [|m ms].
  - split; [intros [] | intros [H _]; congruence].
  - split.
    + intros [<- | []]. split; [discriminate | reflexivity].
    + intros [_ ->]. now left.
Qed.

Lemma bucket_In (log_entries : list LogEntry.t) (week : date * date)
    (x : LogEntry.t) :
  In x (bucket log_entries week) <->
  In x log_entries /\ fst week < entry_date x <= snd week.
Proof. unfold bucket. now rewrite filter_In, in_week_spec. Qed.

(** The weeks of a boundary sequence, by index. *)
Lemma weeks_boundaries_nth (n : nat) (d : date) (i : nat) (b : date) :
  nth_error (week_steps n d) i = Some b ->
  nth_error (weeks (d - 7) (week_steps n d)) i
  = Some (lower_edge (week_steps n d) i, b).
Proof.
  intros H. rewrite (weeks_nth _ (d - 7) i b H).
  apply week_steps_nth_error in H as [Hi ->].
  destruct i as [|i]; unfold lower_edge; [|reflexivity].
  rewrite week_steps_nth by lia. do 2 f_equal. lia.
Qed.

Lemma weeks_boundaries_In (n : nat) (d : date) (w : date * date) :
  In w (weeks (d - 7) (week_steps n d)) ->
  exists i, nth_error (week_steps n d) i = Some (snd w)
            /\ fst w = lower_edge (week_steps n d) i.
Proof.
  intros H. destruct (weeks_In _ _ _ H) as (i & Hi & Hf).
  exists i. split; [exact Hi|]. rewrite Hf.
  apply week_steps_nth_error in Hi as [Hi _].
  destruct i as [|i]; unfold lower_edge; [|reflexivity].
  rewrite week_steps_nth by lia. lia.
Qed.

(** An appended average dated [b] is the one of [b]'s own bucket, which is
    then not empty. *)
Lemma appended_dated (log_entries : list LogEntry.t) (n : nat) (d : date)
    (i : nat) (b : date) (wa : WeeklyAverage.t) :
  nth_error (week_steps n d) i = Some b ->
  In wa (flat_map (emitted log_entries) (weeks (d - 7) (week_steps n d))) ->
  dt_date (WeeklyAverage.datetime wa) = b ->
  let members := bucket log_entries (lower_edge (week_steps n d) i, b) in
  members <> []
  /\ wa = WeeklyAverage.mk (combine b 23 59)
            (average_weight (map LogEntry.weight members)).
Proof.
  intros Hi Hin Hd. apply in_flat_map in Hin as (w & Hw' & Hin).
  apply emitted_In in Hin as [Hne ->]. cbn in Hd.
  destruct (weeks_boundaries_In n d w Hw') as (j & Hj & Hf).
  assert (j = i) as ->.
  { apply week_steps_nth_error in Hj as [_ Hj].
    apply week_steps_nth_error in Hi as [_ Hi']. lia. }
  assert (w = (lower_edge (week_steps n d) i, b)) as ->.
  { destruct w as [p q]; cbn in *. congruence. }
  split; [exact Hne | reflexivity].
Qed.

(* ================================================================= *)
(** ** C3: the window of every boundary *)

(** C3.  For dates at least a week inside the range of [date],
    [compute_weekly_averages] returns, and for every boundary [b], at index
    [i] of the boundary sequence, the observations that are averaged for [b]
    are exactly the entries whose calendar date is strictly after the lower
    edge and at most [b], where the lower edge is the previous boundary and,
    for the first boundary, that boundary minus seven days.  When there is
    such an entry, the average appended for [b] has [b] at 23:59 as its
    datetime and the mean of those entries' weights as its weight, and no
    other appended average is dated [b]. *)
Theorem C3_bucket_window_and_period_end (self : WeightLog) (s e : date) :
  start_date self = Some s ->
  end_date self = Some e ->
  dates_in_range s e ->
  exists (sundays : list date) (appended : list WeeklyAverage.t)
         (self' : WeightLog) (out : list string),
    generate_sundays_in_range s e = Ok sundays
    /\ compute_weekly_averages self = Ok (self', out)
    /\ weekly_averages self' = weekly_averages self ++ appended
    /\ forall (i : nat) (b : date),
         nth_error sundays i = Some b ->
         let members := bucket (log_entries self) (lower_edge sundays i, b) in
         lower_edge sundays i = b - 7
         /\ (forall x, In x members <->
                       In x (log_entries self)
                       /\ lower_edge sundays i < entry_date x <= b)
         /\ (members <> [] ->
             In (WeeklyAverage.mk (combine b 23 59)
                   (average_weight (map LogEntry.weight members))) appended)
         /\ (forall wa, In wa appended ->
                        dt_date (WeeklyAverage.datetime wa) = b ->
                        members <> []
                        /\ wa = WeeklyAverage.mk (combine b 23 59)
                                  (average_weight (map LogEntry.weight members))).
Proof.
  intros Hs He Hr.
  destruct (compute_weekly_averages_spec self s e Hs He Hr) as [Hg Hc].
  eexists (boundaries s e), _, _, _.
  split; [exact Hg|]. split; [exact Hc|]. split; [reflexivity|].
  intros i b Hi members. unfold boundaries in *.
  set (n := n_weeks (first_sunday s) e) in *.
  set (d := first_sunday s) in *.
  pose proof (weeks_boundaries_nth n d i b Hi) as Hw.
  split.
  { apply week_steps_nth_error in Hi as [Hi ->].
    rewrite lower_edge_week_steps by exact Hi. reflexivity. }
  split; [intros x; apply (bucket_In _ (_, b))|].
  split.
  - intros Hne. apply in_flat_map.
    exists (lower_edge (week_steps n d) i, b).
    split; [eapply nth_error_In; exact Hw|].
    apply emitted_In. split; [exact Hne | reflexivity].
  - intros wa Hin Hd. exact (appended_dated _ n d i b wa Hi Hin Hd).
Qed.

Lemma C3_bucket_window_witness :
  let self := scenario_log in
  let s := ymd2ord 2023 1 2 in
  let e := ymd2ord 2023 1 9 in
  (start_date self = Some s /\ end_date self = Some e /\ dates_in_range s e)
  /\ exists (sundays : list date) (appended : list WeeklyAverage.t)
            (self' : WeightLog) (out : list string),
       generate_sundays_in_range s e = Ok sundays
       /\ compute_weekly_averages self = Ok (self', out)
       /\ weekly_averages self' = weekly_averages self ++ appended
       /\ forall (i : nat) (b : date),
            nth_error sundays i = Some b ->
            let members := bucket (log_entries self) (lower_edge sundays i, b) in
            lower_edge sundays i = b - 7
            /\ (forall x, In x members <->
                          In x (log_entries self)
                          /\ lower_edge sundays i < entry_date x <= b)
            /\ (members <> [] ->
                In (WeeklyAverage.mk (combine b 23 59)
                      (average_weight (map LogEntry.weight members))) appended)
            /\ (forall wa, In wa appended ->
                           dt_date (WeeklyAverage.datetime wa) = b ->
                           members <> []
                           /\ wa = WeeklyAverage.mk (combine b 23 59)
                                     (average_weight
                                        (map LogEntry.weight members))).
Proof.
  cbv zeta. split.
  - split; [reflexivity|]. split; [reflexivity|]. closed_dates.
  - apply (C3_bucket_window_and_period_end scenario_log
             (ymd2ord 2023 1 2) (ymd2ord 2023 1 9)).
    + reflexivity.
    + reflexivity.
    + closed_dates.
Defined.

(* ================================================================= *)
(** ** The buckets of a loaded log *)

Lemma parse_log_dates_in_range (self0 self : WeightLog)
    (entries : list LogEntry.t) :
  parse_log self0 entries = Ok self ->
  log_in_range entries ->
  exists s e : date,
    start_date self = Some s /\ end_date self = Some e
    /\ dates_in_range s e
    /\ (forall x, In x (log_entries self) -> s <= entry_date x <= e)
    /\ (exists x, In x (log_entries self) /\ entry_date x = e).
Proof.
  intros Hp Hr.
  destruct (parse_log_range self0 self entries Hp)
    as (s & e & Hs & He & Hle & Hall & (xs & Hxs & Hds) & (xe & Hxe & Hde)
        & Hperm & _ & _).
  exists s, e. repeat split; try assumption; try (now apply Hall).
  - subst s. apply Hr. eapply Permutation_in; [symmetry; exact Hperm | exact Hxs].
  - subst e. apply Hr. eapply Permutation_in; [symmetry; exact Hperm | exact Hxe].
  - exists xe. auto.
Qed.

Lemma filter_split_perm {A : Type} (f g h : A -> bool) (l : list A) :
  (forall x, In x l -> f x = g x || h x) ->
  (forall x, In x l -> g x && h x = false) ->
  Permutation (filter f l) (filter g l ++ filter h l).
Proof.
  induction l as [|a l IH]; intros Hf Hd; [constructor|].
  cbn [filter].
  assert (IH' : Permutation (filter f l) (filter g l ++ filter h l)).
  { apply IH; intros x Hx; [apply Hf | apply Hd]; now right. }
  specialize (Hf a (or_introl eq_refl)). specialize (Hd a (or_introl eq_refl)).
  rewrite Hf. destruct (g a), (h a); cbn in *; try discriminate.
  - now constructor.
  - now apply Permutation_cons_app.
  - exact IH'.
Qed.

Lemma filter_nothing {A : Type} (f : A -> bool) (l : list A) :
  (forall x, In x l -> f x = false) -> filter f l = [].
Proof.
  induction l as [|a l IH]; intros H; [reflexivity|].
  cbn [filter]. rewrite (H a (or_introl eq_refl)).
  apply IH. intros x Hx. apply H. now right.
Qed.

(** The buckets of [n] boundaries from [d] on, put together, hold the
    entries dated after the lower edge [p] and up to the last boundary,
    each as often as the log holds it. *)
Lemma buckets_perm (log_entries : list LogEntry.t) (n : nat) :
  forall p d : date,
    p <= d ->
    Permutation
      (flat_map (bucket log_entries) (weeks p (week_steps (S n) d)))
      (filter (in_week p (d + 7 * Z.of_nat n)) log_entries).
Proof.
  induction n as [|n IH]; intros p d Hpd.
  - cbn [week_steps weeks flat_map]. rewrite app_nil_r. unfold bucket. cbn [fst snd].
    replace (d + 7 * Z.of_nat 0) with d by lia. apply Permutation_refl.
  - change (week_steps (S (S n)) d) with (d :: week_steps (S n) (d + 7)).
    cbn [weeks flat_map]. rewrite (IH d (d + 7)) by lia.
    replace (d + 7 + 7 * Z.of_nat n) with (d + 7 * Z.of_nat (S n)) by lia.
    unfold bucket at 1. cbn [fst snd]. symmetry.
    apply filter_split_perm; intros x _; unfold in_week; zcases; cbn; lia.
Qed.

Lemma scenario_loads : parse_log init scenario_entries = Ok scenario_log.
Proof. reflexivity. Qed.

Lemma scenario_in_range : log_in_range scenario_entries.
Proof.
  intros x [<- | [<- | [<- | []]]]; closed_dates.
Qed.

(* ================================================================= *)
(** ** C4: the buckets partition the entries in range *)

(** C4.  For a log that loads (with dates at least a week inside the range
    of [date]) and whose boundary sequence is not empty, every stored entry
    whose calendar date lies between the first boundary minus seven days and
    the last boundary belongs to the bucket of exactly one boundary; put
    together, the buckets hold exactly those entries, each as often as the
    log does; the appended averages are those of the buckets, in order; and
    a boundary with an empty bucket gets no average. *)
Theorem C4_buckets_partition_entries (self0 self : WeightLog)
    (entries : list LogEntry.t) :
  parse_log self0 entries = Ok self ->
  log_in_range entries ->
  exists (s e : date) (sundays : list date) (appended : list WeeklyAverage.t)
         (self' : WeightLog) (out : list string),
    start_date self = Some s /\ end_date self = Some e
    /\ generate_sundays_in_range s e = Ok sundays
    /\ compute_weekly_averages self = Ok (self', out)
    /\ weekly_averages self' = weekly_averages self ++ appended
    /\ appended
       = flat_map (emitted (log_entries self))
           (weeks (lower_edge sundays 0) sundays)
    /\ (forall first final : date,
          hd_error sundays = Some first ->
          last sundays first = final ->
          (forall x, In x (log_entries self) ->
                     first - 7 <= entry_date x <= final ->
                     exists! i, (i < List.length sundays)%nat
                                /\ In x (bucket (log_entries self)
                                           (lower_edge sundays i,
                                            nth i sundays 0)))
          /\ Permutation
               (flat_map (bucket (log_entries self))
                  (weeks (lower_edge sundays 0) sundays))
               (filter (fun x => (first - 7 <=? entry_date x)
                                 && (entry_date x <=? final))
                  (log_entries self)))
    /\ (forall (i : nat) (b : date),
          nth_error sundays i = Some b ->
          bucket (log_entries self) (lower_edge sundays i, b) = [] ->
          forall wa, In wa appended ->
                     dt_date (WeeklyAverage.datetime wa) <> b).
Proof.
  intros Hp Hr.
  destruct (parse_log_dates_in_range self0 self entries Hp Hr)
    as (s & e & Hs & He & Hrange & Hall & _).
  destruct (compute_weekly_averages_spec self s e Hs He Hrange) as [Hg Hc].
  exists s, e, (boundaries s e). eexists _, _, _.
  split; [exact Hs|]. split; [exact He|]. split; [exact Hg|].
  split; [exact Hc|]. split; [reflexivity|].
  unfold boundaries.
  set (d := first_sunday s). set (n := n_weeks d e).
  pose proof (first_sunday_bounds s) as Hfs. fold d in Hfs.
  assert (Hedge : (0 < n)%nat -> lower_edge (week_steps n d) 0 = d - 7).
  { intros Hn. rewrite lower_edge_week_steps by exact Hn. lia. }
  split; [|split].
  - destruct n as [|n]; [reflexivity|]. now rewrite Hedge by lia.
  - intros first final Hhd Hlast.
    destruct n as [|n]; [discriminate|].
    cbn [week_steps hd_error] in Hhd. injection Hhd as <-.
    rewrite week_steps_last in Hlast. subst final.
    split.
    + intros x Hx Hdate. specialize (Hall x Hx).
      pose proof (Z.div_mod (entry_date x - d + 6) 7 ltac:(lia)) as Hdm.
      pose proof (Z.mod_pos_bound (entry_date x - d + 6) 7 ltac:(lia)) as Hrb.
      set (q := (entry_date x - d + 6) / 7) in *.
      set (r := (entry_date x - d + 6) mod 7) in *.
      assert (Hq : 0 <= q) by lia.
      exists (Z.to_nat q). split.
      * rewrite week_steps_length. split; [lia|].
        apply bucket_In. cbn [fst snd].
        rewrite lower_edge_week_steps, week_steps_nth by lia.
        split; [exact Hx | lia].
      * intros j [Hj Hin]. rewrite week_steps_length in Hj.
        apply bucket_In in Hin as [_ Hin]. cbn [fst snd] in Hin.
        rewrite lower_edge_week_steps, week_steps_nth in Hin by lia.
        lia.
    + rewrite Hedge by lia. rewrite buckets_perm by lia.
      erewrite filter_ext_in; [apply Permutation_refl|].
      intros x Hx. specialize (Hall x Hx). unfold in_week. zcases; cbn; lia.
  - intros i b Hi Hempty wa Hin Hd.
    destruct (appended_dated _ n d i b wa Hi Hin Hd) as [Hne _].
    now apply Hne.
Qed.

Lemma C4_buckets_partition_witness :
  let self0 := init in
  let self := scenario_log in
  let entries := scenario_entries in
  (parse_log self0 entries = Ok self /\ log_in_range entries)
  /\ exists (s e : date) (sundays : list date)
            (appended : list WeeklyAverage.t)
            (self' : WeightLog) (out : list string),
       start_date self = Some s /\ end_date self = Some e
       /\ generate_sundays_in_range s e = Ok sundays
       /\ compute_weekly_averages self = Ok (self', out)
       /\ weekly_averages self' = weekly_averages self ++ appended
       /\ appended
          = flat_map (emitted (log_entries self))
              (weeks (lower_edge sundays 0) sundays)
       /\ (forall first final : date,
             hd_error sundays = Some first ->
             last sundays first = final ->
             (forall x, In x (log_entries self) ->
                        first - 7 <= entry_date x <= final ->
                        exists! i, (i < List.length sundays)%nat
                                   /\ In x (bucket (log_entries self)
                                              (lower_edge sundays i,
                                               nth i sundays 0)))
             /\ Permutation
                  (flat_map (bucket (log_entries self))
                     (weeks (lower_edge sundays 0) sundays))
                  (filter (fun x => (first - 7 <=? entry_date x)
                                    && (entry_date x <=? final))
                     (log_entries self)))
       /\ (forall (i : nat) (b : date),
             nth_error sundays i = Some b ->
             bucket (log_entries self) (lower_edge sundays i, b) = [] ->
             forall wa, In wa appended ->
                        dt_date (WeeklyAverage.datetime wa) <> b).
Proof.
  cbv zeta. split.
  - split; [exact scenario_loads | exact scenario_in_range].
  - exact (C4_buckets_partition_entries init scenario_log scenario_entries
             scenario_loads scenario_in_range).
Defined.

Lemma fold_left_append {A B : Type} (f : A -> B) (l : list A) :
  forall acc, fold_left (fun rows x => rows ++ [f x]) l acc = acc ++ map f l.
Proof.
  induction l as [|x l IH]; intros acc; cbn [fold_left map].
  - now rewrite app_nil_r.
  - rewrite IH. now rewrite <- app_assoc.
Qed.

(** The list that [write_to_csv] sorts: the raw rows, then the rows of the
    averages. *)
Lemma write_to_csv_rows (format_1f : float -> string) (self : WeightLog) :
  write_to_csv format_1f self
  = list_sort row_lt
      (map raw_row (log_entries self)
       ++ map (average_row format_1f) (weekly_averages self)).
Proof.
  unfold write_to_csv. cbv zeta.
  rewrite (fold_left_append (average_row format_1f)).
  rewrite (fold_left_append raw_row). reflexivity.
Qed.

Lemma write_to_csv_raw_rows (format_1f : float -> string) (self : WeightLog)
    (rows : list row) (x : LogEntry.t) :
  write_to_csv format_1f self = Ok rows ->
  In x (log_entries self) ->
  In (raw_row x) rows.
Proof.
  rewrite write_to_csv_rows. intros H Hx.
  apply list_sort_perm in H.
  eapply Permutation_in; [exact H|].
  apply in_or_app. left. now apply in_map.
Qed.

(* ================================================================= *)
(** ** C10: entries after the last boundary, and the low end *)

(** C10.  For a log that loads (with dates at least a week inside the range
    of [date]): an entry whose calendar date is strictly after the last
    boundary is in the bucket of no boundary, while the averages are those
    of the buckets, and it is one of the rows of the merged output whenever
    that is written; and the lower edge of the first bucket, the first
    boundary minus seven days, is strictly before [start_date], which is the
    date of an entry and not after the date of any entry, so that no entry
    lies at or below that edge. *)
Theorem C10_entries_beyond_the_boundaries (self0 self : WeightLog)
    (entries : list LogEntry.t) :
  parse_log self0 entries = Ok self ->
  log_in_range entries ->
  exists (s e : date) (sundays : list date) (appended : list WeeklyAverage.t)
         (self' : WeightLog) (out : list string),
    start_date self = Some s /\ end_date self = Some e
    /\ generate_sundays_in_range s e = Ok sundays
    /\ compute_weekly_averages self = Ok (self', out)
    /\ log_entries self' = log_entries self
    /\ weekly_averages self' = weekly_averages self ++ appended
    /\ appended
       = flat_map (emitted (log_entries self))
           (weeks (lower_edge sundays 0) sundays)
    /\ (forall x, In x (log_entries self) ->
          sundays <> [] ->
          last sundays 0 < entry_date x ->
          (forall (i : nat) (b : date),
             nth_error sundays i = Some b ->
             ~ In x (bucket (log_entries self) (lower_edge sundays i, b)))
          /\ (forall (format_1f : float -> string) (rows : list row),
                write_to_csv format_1f self' = Ok rows -> In (raw_row x) rows))
    /\ (forall first : date,
          hd_error sundays = Some first ->
          lower_edge sundays 0 = first - 7
          /\ first - 7 < s
          /\ (exists x, In x (log_entries self) /\ entry_date x = s)
          /\ (forall x, In x (log_entries self) ->
                        s <= entry_date x /\ first - 7 < entry_date x)).
Proof.
  intros Hp Hr.
  destruct (parse_log_range self0 self entries Hp)
    as (s0 & e0 & Hs0 & _ & _ & _ & Hmin & _).
  destruct (parse_log_dates_in_range self0 self entries Hp Hr)
    as (s & e & Hs & He & Hrange & Hall & _).
  assert (s0 = s) as -> by congruence.
  destruct (compute_weekly_averages_spec self s e Hs He Hrange) as [Hg Hc].
  exists s, e, (boundaries s e). eexists _, _, _.
  split; [exact Hs|]. split; [exact He|]. split; [exact Hg|].
  split; [exact Hc|]. split; [reflexivity|]. split; [reflexivity|].
  unfold boundaries.
  set (d := first_sunday s). set (n := n_weeks d e).
  pose proof (first_sunday_bounds s) as Hfs. fold d in Hfs.
  assert (Hedge : (0 < n)%nat -> lower_edge (week_steps n d) 0 = d - 7).
  { intros Hn. rewrite lower_edge_week_steps by exact Hn. lia. }
  split; [|split].
  - destruct n as [|n]; [reflexivity|]. now rewrite Hedge by lia.
  - intros x Hx Hne Hlast. split.
    + intros i b Hi Hin.
      destruct n as [|n]; [now apply Hne|].
      rewrite week_steps_last in Hlast.
      apply week_steps_nth_error in Hi as [Hi ->].
      apply bucket_In in Hin as [_ Hin]. cbn [fst snd] in Hin. lia.
    + intros format_1f rows Hw.
      apply (write_to_csv_raw_rows format_1f _ rows x Hw). exact Hx.
  - intros first Hhd.
    destruct n as [|n]; [discriminate|].
    cbn [week_steps hd_error] in Hhd. injection Hhd as <-.
    split; [apply Hedge; lia|]. split; [lia|]. split; [exact Hmin|].
    intros x Hx. specialize (Hall x Hx). lia.
Qed.

Lemma C10_entries_beyond_witness :
  let self0 := init in
  let self := scenario_log in
  let entries := scenario_entries in
  (parse_log self0 entries = Ok self /\ log_in_range entries)
  /\ exists (s e : date) (sundays : list date)
            (appended : list WeeklyAverage.t)
            (self' : WeightLog) (out : list string),
       start_date self = Some s /\ end_date self = Some e
       /\ generate_sundays_in_range s e = Ok sundays
       /\ compute_weekly_averages self = Ok (self', out)
       /\ log_entries self' = log_entries self
       /\ weekly_averages self' = weekly_averages self ++ appended
       /\ appended
          = flat_map (emitted (log_entries self))
              (weeks (lower_edge sundays 0) sundays)
       /\ (forall x, In x (log_entries self) ->
             sundays <> [] ->
             last sundays 0 < entry_date x ->
             (forall (i : nat) (b : date),
                nth_error sundays i = Some b ->
                ~ In x (bucket (log_entries self) (lower_edge sundays i, b)))
             /\ (forall (format_1f : float -> string) (rows : list row),
                   write_to_csv format_1f self' = Ok rows ->
                   In (raw_row x) rows))
       /\ (forall first : date,
             hd_error sundays = Some first ->
             lower_edge sundays 0 = first - 7
             /\ first - 7 < s
             /\ (exists x, In x (log_entries self) /\ entry_date x = s)
             /\ (forall x, In x (log_entries self) ->
                           s <= entry_date x /\ first - 7 < entry_date x)).
Proof.
  cbv zeta. split.
  - split; [exact scenario_loads | exact scenario_in_range].
  - exact (C10_entries_beyond_the_boundaries init scenario_log scenario_entries
             scenario_loads scenario_in_range).
Defined.

(* ================================================================= *)
(** ** C1: the extent of the boundary sequence *)

(** C1 as stated fails.  For the log of the scenario, from Monday
    2023-01-02 to Monday 2023-01-09, the latest date is not a Sunday and the
    first Sunday on or after it is 2023-01-15, but the generated sequence is
    2023-01-08 alone: it does not reach 2023-01-15 and holds no boundary
    after the latest date. *)
Lemma C1_counterexample_no_boundary_after_latest_date :
  let s := ymd2ord 2023 1 2 in
  let e := ymd2ord 2023 1 9 in
  weekday e <> 6
  /\ find_first_sunday e = Ok (ymd2ord 2023 1 15)
  /\ generate_sundays_in_range s e = Ok [ymd2ord 2023 1 8]
  /\ ~ In (ymd2ord 2023 1 15) [ymd2ord 2023 1 8]
  /\ ~ (exists b, In b [ymd2ord 2023 1 8] /\ e < b).
Proof.
  cbv zeta. split; [vm_compute; discriminate|].
  split; [reflexivity|]. split; [reflexivity|]. split.
  - intros [H | []]. vm_compute in H. discriminate.
  - intros (b & [<- | []] & H). vm_compute in H. discriminate.
Qed.

(** C1, amended.  For a valid start date, not after the end date, and an
    end date at least a week before [date.max]: the boundary sequence is
    returned and consists of the Sundays from the start date to the end date,
    both included, in ascending order and seven days apart.  It begins with
    the first Sunday on or after the start date and ends with the last
    Sunday on or before the end date, so that no boundary lies after the end
    date; it is empty exactly when the first Sunday on or after the start
    date is after the end date. *)
Theorem C1_boundaries_are_the_sundays_in_range (start_date end_date : date) :
  valid_date start_date ->
  start_date <= end_date ->
  end_date + 7 <= MAXORD ->
  exists (first : date) (sundays : list date),
    find_first_sunday start_date = Ok first
    /\ start_date <= first < start_date + 7
    /\ weekday first = 6
    /\ generate_sundays_in_range start_date end_date = Ok sundays
    /\ (forall d, In d sundays <->
                  start_date <= d <= end_date /\ weekday d = 6)
    /\ seven_apart sundays
    /\ (sundays = [] <-> end_date < first)
    /\ (first <= end_date ->
        hd_error sundays = Some first
        /\ last sundays first <= end_date < last sundays first + 7).
Proof.
  intros [Hmin Hmax] Hle Hend.
  pose proof (first_sunday_bounds start_date) as Hfs.
  pose proof (first_sunday_weekday start_date) as Hwd.
  exists (first_sunday start_date), (boundaries start_date end_date).
  split; [apply find_first_sunday_ok; lia|].
  split; [lia|]. split; [exact Hwd|].
  split; [apply generate_sundays_in_range_fuel; lia|].
  unfold boundaries.
  set (first := first_sunday start_date) in *.
  split; [|split; [apply week_steps_seven_apart|split]].
  - intros d. rewrite week_steps_range, Hwd. split.
    + intros [[H1 H2] H3]. split; [lia | exact H3].
    + intros [[H1 H2] H3].
      destruct (Z_le_gt_dec first d) as [Hfd|Hfd]; [split; [lia | exact H3]|].
      assert (first = d) by (apply weekday_same_week; [congruence | lia]).
      lia.
  - split.
    + intros Hnil. destruct (Z_le_gt_dec first end_date) as [H|H]; [|lia].
      rewrite (n_weeks_step first end_date H) in Hnil. discriminate.
    + intros H. now rewrite n_weeks_none.
  - intros H. rewrite (n_weeks_step first end_date H).
    split; [reflexivity|].
    rewrite week_steps_last.
    pose proof (proj1 (n_weeks_lt first end_date
                         (n_weeks (first + 7) end_date))) as Hin.
    pose proof (proj2 (n_weeks_lt first end_date
                         (S (n_weeks (first + 7) end_date)))) as Hout.
    rewrite (n_weeks_step first end_date H) in Hin, Hout.
    split; [apply Hin; lia|].
    destruct (Z_le_gt_dec
                (first + 7 * Z.of_nat (S (n_weeks (first + 7) end_date)))
                end_date) as [Hc|Hc]; [apply Hout in Hc|]; lia.
Qed.

Lemma C1_boundaries_witness :
  let s := ymd2ord 2023 1 2 in
  let e := ymd2ord 2023 1 9 in
  (valid_date s /\ s <= e /\ e + 7 <= MAXORD)
  /\ exists (first : date) (sundays : list date),
       find_first_sunday s = Ok first
       /\ s <= first < s + 7
       /\ weekday first = 6
       /\ generate_sundays_in_range s e = Ok sundays
       /\ (forall d, In d sundays <-> s <= d <= e /\ weekday d = 6)
       /\ seven_apart sundays
       /\ (sundays = [] <-> e < first)
       /\ (first <= e ->
           hd_error sundays = Some first
           /\ last sundays first <= e < last sundays first + 7).
Proof.
  cbv zeta. split; [closed_dates|].
  apply (C1_boundaries_are_the_sundays_in_range
           (ymd2ord 2023 1 2) (ymd2ord 2023 1 9)); closed_dates.
Defined.

(* ================================================================= *)
(** ** C5: the end-to-end scenario *)

(** C5.  For the log [2023-01-02-08:00,150.0], [2023-01-03-08:00,151.0],
    [2023-01-09-08:00,149.0]: the log loads with the range 2023-01-02 to
    2023-01-09; the boundary sequence is 2023-01-08 alone; its bucket, with
    lower edge 2023-01-01, holds exactly the first two entries; the one
    weekly average is 150.5 at 2023-01-08 23:59 and nothing is printed about
    the span; and the merged output is the three raw rows and the average
    row in time order, the third entry being a raw row only. *)
Theorem C5_end_to_end_scenario (format_1f : float -> string) :
  let average := WeeklyAverage.mk (combine (ymd2ord 2023 1 8) 23 59) 150.5 in
  parse_log init scenario_entries = Ok scenario_log
  /\ generate_sundays_in_range (ymd2ord 2023 1 2) (ymd2ord 2023 1 9)
     = Ok [ymd2ord 2023 1 8]
  /\ lower_edge [ymd2ord 2023 1 8] 0 = ymd2ord 2023 1 1
  /\ bucket scenario_entries (ymd2ord 2023 1 1, ymd2ord 2023 1 8)
     = [log_line 2023 1 2 8 0 150; log_line 2023 1 3 8 0 151]
  /\ average_weight [150; 151]%float = 150.5%float
  /\ compute_weekly_averages scenario_log
     = Ok (mkWeightLog (Some 3%nat) (Some (ymd2ord 2023 1 2))
             (Some (ymd2ord 2023 1 9)) scenario_entries [average], [])
  /\ main_generate format_1f scenario_entries
     = Ok ([raw_row (log_line 2023 1 2 8 0 150);
            raw_row (log_line 2023 1 3 8 0 151);
            average_row format_1f average;
            raw_row (log_line 2023 1 9 8 0 149)], []).
Proof.
  cbv zeta. repeat split; vm_compute; reflexivity.
Qed.

(* ================================================================= *)
(** ** C6: a log of one entry *)







(* ================================================================= *)
(** ** C7: merging when a raw row and an average share an instant *)

(** C7, at the failing input.  For the log of the single line
    [2023-01-08-23:59,150.0], a Sunday, the weekly average is dated
    2023-01-08 23:59 as well; the two rows have the same [Date], the sort
    goes on to compare the string of one with the float of the other, and
    [write_to_csv] raises [TypeError]: nothing is merged. *)
Theorem C7_merge_raises_on_a_shared_instant (format_1f : float -> string) :
  let x := log_line 2023 1 8 23 59 150 in
  let average := WeeklyAverage.mk (combine (ymd2ord 2023 1 8) 23 59) 150 in
  let self := mkWeightLog (Some 1%nat) (Some (ymd2ord 2023 1 8))
                (Some (ymd2ord 2023 1 8)) [x] in
  parse_log init [x] = Ok (self [])
  /\ compute_weekly_averages (self []) = Ok (self [average], [])
  /\ datetime_to_epoch (LogEntry.datetime x)
     = datetime_to_epoch (WeeklyAverage.datetime average)
  /\ row_lt (average_row format_1f average) (raw_row x) = Raise TypeError
  /\ row_lt (raw_row x) (average_row format_1f average) = Raise TypeError
  /\ write_to_csv format_1f (self [average]) = Raise TypeError
  /\ main_generate format_1f [x] = Raise TypeError.
Proof.
  cbv zeta. repeat split; vm_compute; reflexivity.
Qed.

(* ================================================================= *)
(** ** C9: the order of the averages and the order of the entries *)











(* ================================================================= *)
(** ** Sorting by a key, with a comparison that may raise *)

Section SortKeyed.
Context {A : Type} (lt : A -> A -> result bool) (key : A -> Z).

Local Abbreviation by_key := (fun a b : A => key a <= key b).

Lemma insert_keyed (pivot : A) :
  forall sorted,
    Forall (agrees lt key pivot) sorted ->
    StronglySorted by_key sorted ->
    exists l, insert lt pivot sorted = Ok l /\ StronglySorted by_key l.
Proof.
  induction sorted as [|x rest IH]; intros Hag Hs; cbn [insert].
  - exists [pivot]. split; [reflexivity | repeat constructor].
  - inversion Hag as [|? ? (r & Hr & Hk) Hag']; subst.
    inversion Hs as [|? ? Hrest Hall]; subst.
    rewrite Hr. destruct r.
    + eexists. split; [reflexivity|].
      constructor; [exact Hs|]. constructor; [exact Hk|].
      eapply Forall_impl; [|exact Hall]. intros z Hz. cbn in *. lia.
    + destruct (IH Hag' Hrest) as (l & Hl & Hsl). rewrite Hl.
      eexists. split; [reflexivity|].
      constructor; [exact Hsl|].
      apply insert_perm in Hl.
      eapply Permutation_Forall; [exact Hl|].
      constructor; assumption.
Qed.

Lemma sort_from_keyed (l : list A) :
  forall sorted,
    (forall a b, In a l -> In b (sorted ++ l) -> agrees lt key a b) ->
    StronglySorted by_key sorted ->
    exists r, sort_from lt sorted l = Ok r
              /\ Permutation (sorted ++ l) r
              /\ StronglySorted by_key r.
Proof.
  induction l as [|pivot l IH]; intros sorted Hag Hs; cbn [sort_from].
  - exists sorted. rewrite app_nil_r. auto.
  - destruct (insert_keyed pivot sorted) as (s' & Hi & Hs'); [|exact Hs|].
    { apply Forall_forall. intros b Hb. apply Hag; [now left|].
      apply in_or_app. now left. }
    rewrite Hi.
    assert (Hp : Permutation (sorted ++ pivot :: l) (s' ++ l)).
    { apply insert_perm in Hi. rewrite <- Hi. symmetry.
      apply Permutation_middle. }
    destruct (IH s') as (r & Hr & Hpr & Hsr); [|exact Hs'|].
    { intros a b Ha Hb. apply Hag; [now right|].
      eapply Permutation_in; [symmetry; exact Hp | exact Hb]. }
    exists r. repeat split; try assumption.
    now rewrite Hp.
Qed.

Lemma sort_from_app (l1 l2 : list A) :
  forall sorted,
    sort_from lt sorted (l1 ++ l2)
    = match sort_from lt sorted l1 with
      | Ok s => sort_from lt s l2
      | Raise e => Raise e
      end.
Proof.
  induction l1 as [|x l1 IH]; intros sorted; cbn [sort_from app]; [reflexivity|].
  destruct (insert lt x sorted); [apply IH | reflexivity].
Qed.

End SortKeyed.

(* ================================================================= *)
(** ** The merge: when it succeeds and when it raises *)

Lemma row_lt_dates_differ (a b : row) :
  row_date a <> row_date b -> agrees row_lt row_date a b.
Proof.
  destruct a as [[a0 a1] a2], b as [[b0 b1] b2]. cbn. intros Hne.
  exists (a0 <? b0). unfold row_lt.
  destruct (Z.eqb_spec a0 b0) as [|_]; [contradiction|]. cbn.
  split; [reflexivity|]. destruct (Z.ltb_spec a0 b0); cbn; lia.
Qed.

Lemma row_lt_raw_raw (x y : LogEntry.t) :
  agrees row_lt row_date (raw_row x) (raw_row y).
Proof.
  unfold agrees, raw_row, row_lt, row_date. cbn [fst snd].
  generalize (datetime_to_epoch (LogEntry.datetime x)) as e1.
  generalize (datetime_to_epoch (LogEntry.datetime y)) as e2.
  intros e2 e1.
  destruct (Z.eqb_spec e1 e2) as [->|Hne]; cbn [negb].
  - cbn [cell_eq cell_lt].
    destruct (PrimFloat.eqb (LogEntry.weight x) (LogEntry.weight y));
      cbn [negb String.eqb].
    + exists false. split; [reflexivity | lia].
    + eexists. split; [reflexivity|].
      destruct (PrimFloat.ltb _ _); lia.
  - exists (e1 <? e2). split; [reflexivity|].
    destruct (Z.ltb_spec e1 e2); lia.
Qed.

Lemma row_lt_average_average (format_1f : float -> string)
    (x y : WeeklyAverage.t) :
  agrees row_lt row_date (average_row format_1f x) (average_row format_1f y).
Proof.
  unfold agrees, average_row, row_lt, row_date. cbn [fst snd].
  generalize (datetime_to_epoch (WeeklyAverage.datetime x)) as e1.
  generalize (datetime_to_epoch (WeeklyAverage.datetime y)) as e2.
  intros e2 e1.
  destruct (Z.eqb_spec e1 e2) as [->|Hne]; cbn [negb].
  - cbn [cell_eq cell_lt String.eqb negb].
    destruct (String.eqb _ _); cbn [negb].
    + exists false. split; [reflexivity | lia].
    + eexists. split; [reflexivity|].
      destruct (String.ltb _ _); lia.
  - exists (e1 <? e2). split; [reflexivity|].
    destruct (Z.ltb_spec e1 e2); lia.
Qed.

(** At the same [Date] the row of an average and a raw row do not
    compare. *)
Lemma row_lt_average_raw (format_1f : float -> string)
    (wa : WeeklyAverage.t) (x : LogEntry.t) :
  datetime_to_epoch (LogEntry.datetime x)
  = datetime_to_epoch (WeeklyAverage.datetime wa) ->
  row_lt (average_row format_1f wa) (raw_row x) = Raise TypeError.
Proof.
  intros He. unfold average_row, raw_row, row_lt.
  rewrite He, Z.eqb_refl. reflexivity.
Qed.

Section Merge.
Variable format_1f : float -> string.
Variable entries : list LogEntry.t.

Local Abbreviation raw := (raw_of entries).
Local Abbreviation free_average := (free_average_of format_1f entries).

Lemma free_average_agrees (wa : WeeklyAverage.t) (r : row) :
  (forall x, In x entries ->
     datetime_to_epoch (LogEntry.datetime x)
     <> datetime_to_epoch (WeeklyAverage.datetime wa)) ->
  raw r \/ free_average r ->
  agrees row_lt row_date (average_row format_1f wa) r.
Proof.
  intros Hfree [(x & Hx & ->) | (wa' & -> & _)].
  - apply row_lt_dates_differ. cbn. intros He. now apply (Hfree x Hx).
  - apply row_lt_average_average.
Qed.

(** Inserting the row of an average that shares its instant with an entry
    whose raw row is in the sorted list raises [TypeError]. *)
Lemma insert_tied (wa : WeeklyAverage.t) :
  forall sorted : list row,
    sorted_by_date sorted ->
    (forall r, In r sorted -> raw r \/ free_average r) ->
    (exists x, In x entries /\ In (raw_row x) sorted
               /\ datetime_to_epoch (LogEntry.datetime x)
                  = datetime_to_epoch (WeeklyAverage.datetime wa)) ->
    insert row_lt (average_row format_1f wa) sorted = Raise TypeError.
Proof.
  induction sorted as [|a rest IH]; intros Hs Hkind (x & Hx & Hin & He).
  - destruct Hin.
  - cbn [insert]. inversion Hs as [|? ? Hrest Hall]; subst.
    destruct (Z.eq_dec (row_date a) (datetime_to_epoch (WeeklyAverage.datetime wa)))
      as [Ha|Ha].
    + destruct (Hkind a (or_introl eq_refl)) as [(y & Hy & ->) | (wa' & -> & Hfree)].
      * now rewrite row_lt_average_raw.
      * exfalso. apply (Hfree x Hx). cbn in Ha. congruence.
    + assert (Hrest_in : In (raw_row x) rest).
      { destruct Hin as [Heq | Hin]; [|exact Hin].
        exfalso. apply Ha. rewrite Heq. exact He. }
      assert (Hlt : row_date a < datetime_to_epoch (WeeklyAverage.datetime wa)).
      { rewrite Forall_forall in Hall. specialize (Hall _ Hrest_in).
        cbn in Hall. cbn in Ha. lia. }
      destruct (row_lt_dates_differ (average_row format_1f wa) a) as (r & Hr & Hk).
      { cbn. cbn in Ha. congruence. }
      rewrite Hr. destruct r; [cbn in Hk; lia|].
      rewrite IH; [reflexivity | exact Hrest | | exists x; auto].
      intros r Hr'. apply Hkind. now right.
Qed.

Lemma sort_from_tied (averages : list WeeklyAverage.t) :
  forall sorted : list row,
    sorted_by_date sorted ->
    (forall r, In r sorted -> raw r \/ free_average r) ->
    (forall x, In x entries -> In (raw_row x) sorted) ->
    (exists x wa, In x entries /\ In wa averages
                  /\ datetime_to_epoch (LogEntry.datetime x)
                     = datetime_to_epoch (WeeklyAverage.datetime wa)) ->
    sort_from row_lt sorted (map (average_row format_1f) averages)
    = Raise TypeError.
Proof.
  induction averages as [|wa averages IH];
    intros sorted Hs Hkind Hall (x & wa' & Hx & Hwa & He); [destruct Hwa|].
  cbn [map sort_from].
  destruct (existsb
              (fun y => datetime_to_epoch (LogEntry.datetime y)
                        =? datetime_to_epoch (WeeklyAverage.datetime wa))
              entries) eqn:Etie.
  - apply existsb_exists in Etie as (y & Hy & Hey). apply Z.eqb_eq in Hey.
    rewrite insert_tied; [reflexivity | exact Hs | exact Hkind |].
    exists y. auto.
  - assert (Hfree : forall y, In y entries ->
                      datetime_to_epoch (LogEntry.datetime y)
                      <> datetime_to_epoch (WeeklyAverage.datetime wa)).
    { intros y Hy Hey.
      assert (Ht : existsb
                     (fun y => datetime_to_epoch (LogEntry.datetime y)
                               =? datetime_to_epoch (WeeklyAverage.datetime wa))
                     entries = true).
      { apply existsb_exists. exists y. split; [exact Hy | now apply Z.eqb_eq]. }
      congruence. }
    destruct (insert_keyed row_lt row_date (average_row format_1f wa) sorted)
      as (s' & Hi & Hs'); [|exact Hs|].
    { apply Forall_forall. intros r Hr. apply free_average_agrees; auto. }
    rewrite Hi. pose proof (insert_perm _ _ _ _ Hi) as Hp.
    apply IH.
    + exact Hs'.
    + intros r Hr. apply Permutation_sym in Hp.
      destruct (Permutation_in _ Hp Hr) as [<- | Hr'].
      * right. exists wa. auto.
      * now apply Hkind.
    + intros y Hy. eapply Permutation_in; [exact Hp|]. right. now apply Hall.
    + destruct Hwa as [-> | Hwa]; [exfalso; now apply (Hfree x Hx)|].
      exists x, wa'. auto.
Qed.

End Merge.



(** The merge raises [TypeError] when an entry shares its instant with a
    weekly average, that is, when it was logged at 23:59 on a boundary: the
    sort comes to compare the row of that average with a raw row of the same
    [Date]. *)
Theorem merge_raises_with_shared_instant (format_1f : float -> string)
    (self : WeightLog) :
  shared_instant self ->
  write_to_csv format_1f self = Raise TypeError.
Proof.
  intros (x & wa & Hx & Hwa & He).
  rewrite write_to_csv_rows. unfold list_sort. rewrite sort_from_app.
  destruct (sort_from_keyed row_lt row_date
              (map raw_row (log_entries self)) [])
    as (sorted & Hr & Hp & Hs); [|constructor|].
  { cbn [app]. intros a b Ha Hb.
    apply in_map_iff in Ha as (y & <- & _).
    apply in_map_iff in Hb as (z & <- & _). apply row_lt_raw_raw. }
  rewrite Hr. cbn [app] in Hp.
  apply (sort_from_tied format_1f (log_entries self)).
  - exact Hs.
  - intros r Hr'. left.
    apply Permutation_sym in Hp. apply (Permutation_in _ Hp) in Hr'.
    apply in_map_iff in Hr' as (y & <- & Hy). exists y. auto.
  - intros y Hy. eapply Permutation_in; [exact Hp|]. now apply in_map.
  - exists x, wa. auto.
Qed.

Lemma merge_raises_witness :
  let x := log_line 2023 1 8 23 59 150 in
  let self := mkWeightLog (Some 1%nat) (Some (ymd2ord 2023 1 8))
                (Some (ymd2ord 2023 1 8)) [x]
                [WeeklyAverage.mk (combine (ymd2ord 2023 1 8) 23 59) 150] in
  shared_instant self
  /\ write_to_csv (fun _ => ""%string) self = Raise TypeError.
Proof.
  cbv zeta.
  match goal with |- ?P /\ _ => assert (H : P) end.
  { eexists _, _. split; [now left|]. split; [now left | reflexivity]. }
  split; [exact H|].
  exact (merge_raises_with_shared_instant _ _ H).
Defined.

(* ================================================================= *)
(** ** The epoch of a datetime *)

(** [datetime_to_epoch] keeps the order of datetimes: on times of day, one
    datetime is before another exactly when its epoch is smaller, and two
    datetimes of the same epoch are the same. *)
Theorem datetime_to_epoch_keeps_order (a b : datetime) :
  valid_time a -> valid_time b ->
  (datetime_lt a b = true <-> datetime_to_epoch a < datetime_to_epoch b)
  /\ (datetime_to_epoch a = datetime_to_epoch b -> a = b).
Proof.
  intros [Hha Hma] [Hhb Hmb]. unfold datetime_lt, datetime_to_epoch.
  generalize EPOCH_ORDINAL as z. intros z.
  destruct a as [da ha ma], b as [db hb mb]. cbn [dt_date dt_hour dt_minute] in *.
  split.
  - zcases; split; intros; try reflexivity; try discriminate; lia.
  - intros H. assert (da = db) by lia. assert (ha = hb) by lia.
    assert (ma = mb) by lia. now subst.
Qed.

Lemma datetime_to_epoch_order_witness :
  let a := mkdatetime (ymd2ord 2023 1 2) 8 0 in
  let b := mkdatetime (ymd2ord 2023 1 3) 7 30 in
  (valid_time a /\ valid_time b)
  /\ (datetime_lt a b = true <-> datetime_to_epoch a < datetime_to_epoch b)
  /\ (datetime_to_epoch a = datetime_to_epoch b -> a = b).
Proof.
  cbv zeta.
  assert (Ha : valid_time (mkdatetime (ymd2ord 2023 1 2) 8 0))
    by (unfold valid_time; cbn; lia).
  assert (Hb : valid_time (mkdatetime (ymd2ord 2023 1 3) 7 30))
    by (unfold valid_time; cbn; lia).
  split; [split; assumption|].
  exact (datetime_to_epoch_keeps_order _ _ Ha Hb).
Defined.

(* ================================================================= *)
(** ** The sort of [parse_log] keeps the file order where it can *)

Section SortStable.
Context {A : Type} (ltb : A -> A -> bool).

Local Abbreviation lt := (fun a b : A => Ok (ltb a b)).

(** Where the pivot goes: behind the elements it is not less than, in front
    of the first one it is less than. *)
Lemma insert_place (pivot : A) :
  forall sorted l,
    insert lt pivot sorted = Ok l ->
    exists l1 l2,
      sorted = l1 ++ l2 /\ l = l1 ++ pivot :: l2
      /\ (forall x, In x l1 -> ltb pivot x = false)
      /\ (forall x, hd_error l2 = Some x -> ltb pivot x = true).
Proof.
  induction sorted as [|x rest IH]; cbn [insert]; intros l.
  - intros [= <-]. exists [], [].
    split; [reflexivity|]. split; [reflexivity|].
    split; [intros ? [] | intros ? [=]].
  - destruct (ltb pivot x) eqn:E.
    + intros [= <-]. exists [], (x :: rest).
      split; [reflexivity|]. split; [reflexivity|].
      split; [intros ? [] | now intros ? [= <-]].
    + destruct (insert lt pivot rest) as [rest'|] eqn:Ei; [|discriminate].
      intros [= <-].
      destruct (IH rest' eq_refl) as (l1 & l2 & -> & -> & H1 & H2).
      exists (x :: l1), l2. repeat split; try assumption.
      intros y [<- | Hy]; [exact E | now apply H1].
Qed.

Lemma sorted_before {R : A -> A -> Prop} (l1 : list A) :
  forall (a : A) (l2 : list A),
    StronglySorted R (l1 ++ a :: l2) -> forall x, In x l1 -> R x a.
Proof.
  induction l1 as [|b l1 IH]; intros a l2 Hs x; [intros []|].
  cbn [app] in Hs. inversion Hs as [|? ? Hrest Hall]; subst.
  intros [<- | Hx]; [|now apply (IH a l2)].
  rewrite Forall_forall in Hall. apply Hall, in_or_app. right. now left.
Qed.

Lemma sorted_suffix {R : A -> A -> Prop} (l1 l2 : list A) :
  StronglySorted R (l1 ++ l2) -> StronglySorted R l2.
Proof.
  induction l1 as [|b l1 IH]; cbn [app]; intros Hs; [exact Hs|].
  inversion Hs; subst. now apply IH.
Qed.

Lemma insert_behind (pivot : A) :
  forall sorted,
    (forall x, In x sorted -> ltb pivot x = false) ->
    insert lt pivot sorted = Ok (sorted ++ [pivot]).
Proof.
  induction sorted as [|x rest IH]; intros H; cbn [insert]; [reflexivity|].
  rewrite (H x (or_introl eq_refl)), IH; [reflexivity|].
  intros y Hy. apply H. now right.
Qed.

(** A list that is in order already is left as it is. *)
Lemma sort_from_in_order (l : list A) :
  forall sorted,
    StronglySorted (not_after ltb) (sorted ++ l) ->
    sort_from lt sorted l = Ok (sorted ++ l).
Proof.
  induction l as [|pivot l IH]; intros sorted Hs; cbn [sort_from].
  - now rewrite app_nil_r.
  - rewrite insert_behind by (apply (sorted_before sorted pivot l Hs)).
    replace (sorted ++ pivot :: l) with ((sorted ++ [pivot]) ++ l) in *
      by (now rewrite <- app_assoc).
    now apply IH.
Qed.

(** Stability.  [same] marks the elements of one rank: they are not less
    than one another and compare alike with every element. *)
Variable same : A -> bool.
Hypothesis ltb_irrefl : forall x, ltb x x = false.
Hypothesis same_rank :
  forall a b, same a = true -> same b = true ->
              forall x, ltb a x = ltb b x.

Lemma insert_keeps_rank (pivot : A) (sorted l : list A) :
  StronglySorted (not_after ltb) sorted ->
  insert lt pivot sorted = Ok l ->
  filter same l = filter same sorted ++ (if same pivot then [pivot] else []).
Proof.
  intros Hs Hi.
  destruct (insert_place pivot sorted l Hi) as (l1 & l2 & -> & -> & _ & H2).
  rewrite !filter_app. cbn [filter].
  destruct (same pivot) eqn:Ep; [|now rewrite app_nil_r].
  rewrite (filter_nothing same l2); [now rewrite app_nil_r|].
  intros y Hy. destruct l2 as [|x l2]; [destruct Hy|].
  specialize (H2 x eq_refl).
  destruct (same y) eqn:Ey; [exfalso | reflexivity].
  pose proof (same_rank pivot y Ep Ey x) as Hxy. rewrite H2 in Hxy.
  destruct Hy as [<- | Hy].
  - rewrite ltb_irrefl in Hxy. discriminate.
  - apply sorted_suffix in Hs.
    inversion Hs as [|? ? _ Hall]; subst.
    rewrite Forall_forall in Hall. specialize (Hall y Hy).
    unfold not_after in Hall. congruence.
Qed.

End SortStable.

Lemma made_at_same_rank (t : datetime) (a b : LogEntry.t) :
  made_at t a = true -> made_at t b = true ->
  forall x, LogEntry.lt a x = LogEntry.lt b x.
Proof.
  unfold made_at. rewrite !andb_true_iff, !Z.eqb_eq.
  intros [[Ha1 Ha2] Ha3] [[Hb1 Hb2] Hb3] x.
  unfold LogEntry.lt, datetime_lt. now rewrite Ha1, Ha2, Ha3, Hb1, Hb2, Hb3.
Qed.

Lemma LogEntry_lt_irrefl (x : LogEntry.t) : LogEntry.lt x x = false.
Proof.
  unfold LogEntry.lt, datetime_lt. rewrite !Z.eqb_refl. apply Z.ltb_irrefl.
Qed.

Lemma sort_from_stable (t : datetime) (l : list LogEntry.t) :
  forall sorted r,
    sorted_by_timestamp sorted ->
    sort_from (fun a b => Ok (LogEntry.lt a b)) sorted l = Ok r ->
    filter (made_at t) r = filter (made_at t) sorted ++ filter (made_at t) l.
Proof.
  induction l as [|pivot l IH]; intros sorted r Hs; cbn [sort_from].
  - intros [= <-]. cbn [filter]. now rewrite app_nil_r.
  - destruct (insert _ pivot sorted) as [s'|] eqn:Hi; [|discriminate].
    intros Hr.
    assert (Hs' : sorted_by_timestamp s').
    { apply (insert_sorted LogEntry.lt
               (fun x y => datetime_lt_asym _ _)
               (fun x y z => datetime_not_after_trans _ _ _)
               pivot sorted s' Hs Hi). }
    rewrite (IH s' r Hs' Hr).
    rewrite (insert_keeps_rank LogEntry.lt (made_at t) LogEntry_lt_irrefl
               (made_at_same_rank t) pivot sorted s' Hs Hi).
    cbn [filter]. rewrite <- app_assoc.
    now destruct (made_at t pivot).
Qed.

(** The sort of [parse_log] is stable: the entries made at one and the same
    instant are stored in the order in which the file has them. *)
Theorem parse_log_is_stable (self self' : WeightLog)
    (entries : list LogEntry.t) :
  parse_log self entries = Ok self' ->
  forall t : datetime,
    filter (made_at t) (log_entries self') = filter (made_at t) entries.
Proof.
  unfold parse_log. cbv zeta.
  destruct (Z.of_nat (List.length entries) <=? 0); [discriminate|].
  destruct (list_sort _ entries) as [sorted|] eqn:Hsort; [|discriminate].
  cbn [bind]. destruct sorted as [|first rest]; [discriminate|].
  intros [= <-] t. cbn [log_entries].
  apply (sort_from_stable t entries [] _ (SSorted_nil _) Hsort).
Qed.

Lemma parse_log_is_stable_witness :
  let entries := [log_line 2023 1 9 8 0 149; log_line 2023 1 2 8 0 150;
                  log_line 2023 1 2 8 0 151] in
  let sorted := [log_line 2023 1 2 8 0 150; log_line 2023 1 2 8 0 151;
                 log_line 2023 1 9 8 0 149] in
  let self' := mkWeightLog (Some 3%nat) (Some (ymd2ord 2023 1 2))
                 (Some (ymd2ord 2023 1 9)) sorted [] in
  parse_log init entries = Ok self'
  /\ forall t : datetime,
       filter (made_at t) (log_entries self') = filter (made_at t) entries.
Proof.
  cbv zeta.
  match goal with |- ?P /\ _ => assert (H : P) by reflexivity end.
  split; [exact H|].
  exact (parse_log_is_stable init _ _ H).
Defined.

(** A log that is in chronological order already (no entry earlier than
    one before it) is stored exactly as the file has it, with the number of
    its entries. *)
Theorem parse_log_keeps_an_ordered_log (self : WeightLog)
    (entries : list LogEntry.t) :
  entries <> [] ->
  sorted_by_timestamp entries ->
  exists self' : WeightLog,
    parse_log self entries = Ok self'
    /\ log_entries self' = entries
    /\ num_entries self' = Some (List.length entries).
Proof.
  intros Hne Hs. unfold parse_log. cbv zeta.
  destruct (Z.leb_spec (Z.of_nat (List.length entries)) 0) as [Hl|Hl].
  { destruct entries; [congruence | simpl in Hl; lia]. }
  unfold list_sort.
  rewrite (sort_from_in_order LogEntry.lt entries [] Hs). cbn [bind app].
  destruct entries as [|first rest]; [congruence|].
  eexists. split; [reflexivity|]. split; reflexivity.
Qed.

Lemma parse_log_ordered_witness :
  (scenario_entries <> [] /\ sorted_by_timestamp scenario_entries)
  /\ exists self' : WeightLog,
       parse_log init scenario_entries = Ok self'
       /\ log_entries self' = scenario_entries
       /\ num_entries self' = Some (List.length scenario_entries).
Proof.
  assert (Hne : scenario_entries <> []) by discriminate.
  assert (Hs : sorted_by_timestamp scenario_entries).
  { unfold scenario_entries.
    repeat (constructor; [|repeat (constructor; try reflexivity)]).
    constructor. }
  split; [split; assumption|].
  exact (parse_log_keeps_an_ordered_log init scenario_entries Hne Hs).
Defined.

(* ================================================================= *)
(** ** Calling [compute_weekly_averages] again *)

(** [compute_weekly_averages] never clears [weekly_averages]: when a call
    returns, a second call on the object it leaves returns as well, prints
    the same, and appends the same averages once more. *)
Theorem compute_weekly_averages_accumulates (self self1 : WeightLog)
    (out : list string) :
  compute_weekly_averages self = Ok (self1, out) ->
  exists (appended : list WeeklyAverage.t) (self2 : WeightLog),
    weekly_averages self1 = weekly_averages self ++ appended
    /\ log_entries self1 = log_entries self
    /\ compute_weekly_averages self1 = Ok (self2, out)
    /\ weekly_averages self2 = weekly_averages self ++ appended ++ appended.
Proof.
  unfold compute_weekly_averages.
  destruct (start_date self) as [s|] eqn:Hs; [|discriminate].
  destruct (end_date self) as [e|] eqn:He; [|discriminate].
  destruct (generate_sundays_in_range s e) as [sundays|] eqn:Hg;
    [|discriminate].
  cbn [bind]. destruct sundays as [|first rest].
  - intros [= <- <-]. exists [], self.
    rewrite Hs, He, Hg. cbn [bind]. rewrite !app_nil_r. auto.
  - destruct (date_add_days first (-7)) as [p|] eqn:Hp; [|discriminate].
    cbn [bind]. rewrite weeks_loop_spec.
    set (appended := flat_map (emitted (log_entries self))
                       (weeks p (first :: rest))).
    intros H.
    assert (H1 : self1 = mkWeightLog (num_entries self) (Some s) (Some e)
                           (log_entries self)
                           (weekly_averages self ++ appended)) by congruence.
    assert (H2 : out = []) by congruence.
    subst self1 out. clear H.
    cbn [start_date end_date log_entries weekly_averages num_entries].
    rewrite Hg. cbn [bind]. rewrite Hp. cbn [bind].
    rewrite weeks_loop_spec. fold appended.
    eexists _, _. split; [reflexivity|]. split; [reflexivity|].
    split; [reflexivity|]. cbn [weekly_averages]. now rewrite app_assoc.
Qed.

Lemma compute_weekly_averages_accumulates_witness :
  let average := WeeklyAverage.mk (combine (ymd2ord 2023 1 8) 23 59) 150.5 in
  let self1 := mkWeightLog (Some 3%nat) (Some (ymd2ord 2023 1 2))
                 (Some (ymd2ord 2023 1 9)) scenario_entries [average] in
  compute_weekly_averages scenario_log = Ok (self1, [])
  /\ exists (appended : list WeeklyAverage.t) (self2 : WeightLog),
       weekly_averages self1 = weekly_averages scenario_log ++ appended
       /\ log_entries self1 = log_entries scenario_log
       /\ compute_weekly_averages self1 = Ok (self2, [])
       /\ weekly_averages self2
          = weekly_averages scenario_log ++ appended ++ appended.
Proof.
  cbv zeta.
  match goal with |- ?P /\ _ => assert (H : P) by (vm_compute; reflexivity) end.
  split; [exact H|].
  exact (compute_weekly_averages_accumulates scenario_log _ [] H).
Defined.

(* ================================================================= *)
(** ** When weekly averages are produced *)

Lemma boundaries_In (s e b : date) :
  In b (boundaries s e) <-> first_sunday s <= b <= e /\ weekday b = 6.
Proof.
  unfold boundaries. now rewrite week_steps_range, first_sunday_weekday.
Qed.

Lemma emitted_length (log_entries : list LogEntry.t) (week : date * date) :
  (List.length (emitted log_entries week)
   <= List.length (bucket log_entries week))%nat
  /\ (List.length (emitted log_entries week) <= 1)%nat.
Proof.
  unfold emitted. destruct (bucket log_entries week); cbn [List.length]; lia.
Qed.

Lemma flat_map_emitted_length (log_entries : list LogEntry.t)
    (ws : list (date * date)) :
  (List.length (flat_map (emitted log_entries) ws)
   <= List.length (flat_map (bucket log_entries) ws))%nat
  /\ (List.length (flat_map (emitted log_entries) ws) <= List.length ws)%nat.
Proof.
  induction ws as [|w ws [IH1 IH2]]; cbn [flat_map List.length]; [lia|].
  rewrite !length_app. pose proof (emitted_length log_entries w). lia.
Qed.

Lemma filter_length {A : Type} (f : A -> bool) (l : list A) :
  (List.length (filter f l) <= List.length l)%nat.
Proof.
  induction l as [|a l IH]; cbn [filter List.length]; [lia|].
  destruct (f a); cbn [List.length]; lia.
Qed.

(** The appended averages are never more than the boundaries, nor than the
    entries of the log: every boundary gets one average at most, and every
    average rests on entries that no other average counts. *)
Theorem weekly_averages_are_few (self : WeightLog) (s e : date) :
  start_date self = Some s ->
  end_date self = Some e ->
  dates_in_range s e ->
  exists (sundays : list date) (appended : list WeeklyAverage.t)
         (self' : WeightLog) (out : list string),
    generate_sundays_in_range s e = Ok sundays
    /\ compute_weekly_averages self = Ok (self', out)
    /\ weekly_averages self' = weekly_averages self ++ appended
    /\ (List.length appended <= List.length sundays)%nat
    /\ (List.length appended <= List.length (log_entries self))%nat.
Proof.
  intros Hs He Hr.
  destruct (compute_weekly_averages_spec self s e Hs He Hr) as [Hg Hc].
  eexists (boundaries s e), _, _, _.
  split; [exact Hg|]. split; [exact Hc|]. split; [reflexivity|].
  destruct (flat_map_emitted_length (log_entries self)
              (weeks (first_sunday s - 7) (boundaries s e))) as [H1 H2].
  split.
  - etransitivity; [exact H2|]. clear.
    generalize (first_sunday s - 7) as p.
    induction (boundaries s e) as [|b l IH]; intros p; cbn [weeks List.length];
      [lia|]. specialize (IH b). lia.
  - etransitivity; [exact H1|]. unfold boundaries.
    destruct (n_weeks (first_sunday s) e) as [|n]; [cbn; lia|].
    rewrite (Permutation_length
               (buckets_perm (log_entries self) n (first_sunday s - 7)
                  (first_sunday s) ltac:(lia))).
    apply filter_length.
Qed.

Lemma weekly_averages_are_few_witness :
  let s := ymd2ord 2023 1 2 in
  let e := ymd2ord 2023 1 9 in
  (start_date scenario_log = Some s /\ end_date scenario_log = Some e
   /\ dates_in_range s e)
  /\ exists (sundays : list date) (appended : list WeeklyAverage.t)
            (self' : WeightLog) (out : list string),
       generate_sundays_in_range s e = Ok sundays
       /\ compute_weekly_averages scenario_log = Ok (self', out)
       /\ weekly_averages self' = weekly_averages scenario_log ++ appended
       /\ (List.length appended <= List.length sundays)%nat
       /\ (List.length appended <= List.length (log_entries scenario_log))%nat.
Proof.
  cbv zeta.
  assert (Hr : dates_in_range (ymd2ord 2023 1 2) (ymd2ord 2023 1 9))
    by closed_dates.
  split; [split; [reflexivity | split; [reflexivity | exact Hr]]|].
  exact (weekly_averages_are_few scenario_log _ _ eq_refl eq_refl Hr).
Defined.

(** For a log that loads, the span message is printed exactly when no
    weekly average is produced, which is when no Sunday lies between the
    dates of the first and of the last entry (these are then less than six
    days apart).  Otherwise nothing is printed and the first boundary, the
    first Sunday on or after the first entry's date, gets an average. *)
Theorem span_message_exactly_without_averages (self0 self : WeightLog)
    (entries : list LogEntry.t) :
  parse_log self0 entries = Ok self ->
  log_in_range entries ->
  exists (s e : date) (sundays : list date) (appended : list WeeklyAverage.t)
         (self' : WeightLog) (out : list string),
    start_date self = Some s /\ end_date self = Some e
    /\ generate_sundays_in_range s e = Ok sundays
    /\ compute_weekly_averages self = Ok (self', out)
    /\ weekly_averages self' = weekly_averages self ++ appended
    /\ ((out = [SPAN_MESSAGE] /\ sundays = [] /\ appended = []
         /\ (forall d, s <= d <= e -> weekday d <> 6) /\ e - s < 6)
        \/ (out = []
            /\ exists (first : date) (rest : list date)
                      (average : WeeklyAverage.t) (more : list WeeklyAverage.t),
                 sundays = first :: rest
                 /\ appended = average :: more
                 /\ WeeklyAverage.datetime average = combine first 23 59
                 /\ s <= first <= e /\ weekday first = 6)).
Proof.
  intros Hp Hr.
  destruct (parse_log_range self0 self entries Hp)
    as (s0 & e0 & Hs0 & _ & _ & _ & (xs & Hxs & Hds) & _).
  destruct (parse_log_dates_in_range self0 self entries Hp Hr)
    as (s & e & Hs & He & Hrange & Hall & _).
  assert (s0 = s) as -> by congruence.
  destruct (compute_weekly_averages_spec self s e Hs He Hrange) as [Hg Hc].
  exists s, e, (boundaries s e). eexists _, _, _.
  split; [exact Hs|]. split; [exact He|]. split; [exact Hg|].
  split; [exact Hc|]. split; [reflexivity|].
  unfold boundaries.
  pose proof (first_sunday_bounds s) as Hfs.
  pose proof (first_sunday_weekday s) as Hwd.
  set (d := first_sunday s) in *.
  destruct (Z_le_gt_dec d e) as [Hde|Hde].
  - right. rewrite (n_weeks_step d e Hde).
    cbn [week_steps weeks flat_map]. split; [reflexivity|].
    assert (Hin : In xs (bucket (log_entries self) (d - 7, d))).
    { apply bucket_In. cbn [fst snd]. split; [exact Hxs | lia]. }
    unfold emitted at 1.
    destruct (bucket (log_entries self) (d - 7, d)) as [|m ms] eqn:Eb;
      [destruct Hin|].
    cbn [app snd]. eexists d, _, _, _.
    split; [reflexivity|]. split; [reflexivity|]. split; [reflexivity|].
    split; [lia | exact Hwd].
  - left. rewrite n_weeks_none by lia. cbn [week_steps weeks flat_map].
    repeat split; try reflexivity; [|lia].
    intros d' Hd' Hw.
    assert (d = d') by (apply weekday_same_week; [congruence | lia]).
    lia.
Qed.

Lemma span_message_witness :
  (parse_log init scenario_entries = Ok scenario_log
   /\ log_in_range scenario_entries)
  /\ exists (s e : date) (sundays : list date)
            (appended : list WeeklyAverage.t)
            (self' : WeightLog) (out : list string),
       start_date scenario_log = Some s /\ end_date scenario_log = Some e
       /\ generate_sundays_in_range s e = Ok sundays
       /\ compute_weekly_averages scenario_log = Ok (self', out)
       /\ weekly_averages self' = weekly_averages scenario_log ++ appended
       /\ ((out = [SPAN_MESSAGE] /\ sundays = [] /\ appended = []
            /\ (forall d, s <= d <= e -> weekday d <> 6) /\ e - s < 6)
           \/ (out = []
               /\ exists (first : date) (rest : list date)
                         (average : WeeklyAverage.t)
                         (more : list WeeklyAverage.t),
                    sundays = first :: rest
                    /\ appended = average :: more
                    /\ WeeklyAverage.datetime average = combine first 23 59
                    /\ s <= first <= e /\ weekday first = 6)).
Proof.
  split; [split; [exact scenario_loads | exact scenario_in_range]|].
  exact (span_message_exactly_without_averages init scenario_log
           scenario_entries scenario_loads scenario_in_range).
Defined.

(* ================================================================= *)
(** ** The outcome of the whole run *)

Lemma datetime_to_epoch_inj (a b : datetime) :
  valid_time a -> valid_time b ->
  datetime_to_epoch a = datetime_to_epoch b -> a = b.
Proof.
  intros [Hha Hma] [Hhb Hmb]. unfold datetime_to_epoch.
  generalize EPOCH_ORDINAL as z. intros z.
  destruct a as [da ha ma], b as [db hb mb]. cbn [dt_date dt_hour dt_minute] in *.
  intros H. assert (da = db) by lia. assert (ha = hb) by lia.
  assert (ma = mb) by lia. now subst.
Qed.

Lemma write_to_csv_tied_raises (format_1f : float -> string)
    (self : WeightLog) :
  shared_instant self -> write_to_csv format_1f self = Raise TypeError.
Proof.
  intros (x & wa & Hx & Hwa & He).
  rewrite write_to_csv_rows. unfold list_sort. rewrite sort_from_app.
  destruct (sort_from_keyed row_lt row_date
              (map raw_row (log_entries self)) [])
    as (sorted & Hr & Hp & Hs); [|constructor|].
  { cbn [app]. intros a b Ha Hb.
    apply in_map_iff in Ha as (y & <- & _).
    apply in_map_iff in Hb as (z & <- & _). apply row_lt_raw_raw. }
  rewrite Hr. cbn [app] in Hp.
  apply (sort_from_tied format_1f (log_entries self)).
  - exact Hs.
  - intros r Hr'. left.
    apply Permutation_sym in Hp. apply (Permutation_in _ Hp) in Hr'.
    apply in_map_iff in Hr' as (y & <- & Hy). exists y. auto.
  - intros y Hy. eapply Permutation_in; [exact Hp|]. now apply in_map.
  - exists x, wa. auto.
Qed.

Lemma write_to_csv_untied_rows (format_1f : float -> string)
    (self : WeightLog) :
  ~ shared_instant self ->
  exists rows : list row,
    write_to_csv format_1f self = Ok rows
    /\ Permutation
         (map raw_row (log_entries self)
          ++ map (average_row format_1f) (weekly_averages self)) rows
    /\ sorted_by_date rows.
Proof.
  intros Hfree. rewrite write_to_csv_rows. unfold list_sort.
  destruct (sort_from_keyed row_lt row_date
              (map raw_row (log_entries self)
               ++ map (average_row format_1f) (weekly_averages self)) [])
    as (rows & Hr & Hp & Hs); [|constructor|exists rows; auto].
  cbn [app]. intros a b Ha Hb.
  apply in_app_or in Ha as [Ha|Ha]; apply in_map_iff in Ha as (x & <- & Hx);
    apply in_app_or in Hb as [Hb|Hb]; apply in_map_iff in Hb as (y & <- & Hy).
  - apply row_lt_raw_raw.
  - apply row_lt_dates_differ. cbn. intros He. apply Hfree.
    exists x, y. auto.
  - apply row_lt_dates_differ. cbn. intros He. apply Hfree.
    exists y, x. auto.
  - apply row_lt_average_average.
Qed.

Lemma appended_le_entries (log_entries : list LogEntry.t) (n : nat) (d : date) :
  (List.length (flat_map (emitted log_entries) (weeks (d - 7) (week_steps n d)))
   <= List.length log_entries)%nat.
Proof.
  destruct (flat_map_emitted_length log_entries
              (weeks (d - 7) (week_steps n d))) as [H1 _].
  etransitivity; [exact H1|].
  destruct n as [|n]; [cbn; lia|].
  rewrite (Permutation_length (buckets_perm log_entries n (d - 7) d ltac:(lia))).
  apply filter_length.
Qed.

(** An entry of the range of the log that was logged at the end of a week
    has the average of its week at its very instant. *)
Lemma week_end_entry_shares_its_instant (log_entries : list LogEntry.t)
    (s e : date) (x : LogEntry.t) :
  In x log_entries ->
  s <= entry_date x <= e ->
  logged_at_week_end x ->
  exists wa,
    In wa (flat_map (emitted log_entries)
             (weeks (first_sunday s - 7) (boundaries s e)))
    /\ datetime_to_epoch (LogEntry.datetime x)
       = datetime_to_epoch (WeeklyAverage.datetime wa).
Proof.
  intros Hx Hd (Hw & Hh & Hm).
  set (b := entry_date x) in *.
  assert (Hb : In b (boundaries s e)).
  { apply boundaries_In. split; [|exact Hw]. split; [|lia].
    pose proof (first_sunday_bounds s) as Hfs.
    pose proof (first_sunday_weekday s) as Hfw.
    destruct (Z_le_gt_dec (first_sunday s) b) as [|Hgt]; [assumption|].
    assert (first_sunday s = b)
      by (apply weekday_same_week; [congruence | lia]).
    lia. }
  apply In_nth_error in Hb as [i Hi]. unfold boundaries in *.
  pose proof (weeks_boundaries_nth _ _ i b Hi) as Hwk.
  apply nth_error_In in Hwk.
  pose proof (proj1 (week_steps_nth_error _ _ i b) Hi) as [Hlt Hbi].
  eexists. split.
  - apply in_flat_map. eexists. split; [exact Hwk|].
    apply emitted_In. split; [|reflexivity].
    intros Hnil.
    assert (Hin : In x (bucket log_entries
                          (lower_edge (week_steps (n_weeks (first_sunday s) e)
                                         (first_sunday s)) i, b))).
    { apply bucket_In. cbn [fst snd]. split; [exact Hx|].
      rewrite lower_edge_week_steps by exact Hlt. fold b. lia. }
    rewrite Hnil in Hin. destruct Hin.
  - cbn [WeeklyAverage.datetime snd]. unfold datetime_to_epoch, combine.
    cbn [dt_date dt_hour dt_minute]. fold (entry_date x). fold b.
    now rewrite Hh, Hm.
Qed.

(** The whole run on a log that has an entry, with its dates at least a
    week inside the range of [date] and its entries made at times of day.
    When an entry was logged at 23:59 on a Sunday, the run ends in
    [TypeError] and nothing is written.  When no entry was, the run returns:
    the rows are sorted ascending by [Date], they hold the raw row of every
    entry, and they are at least as many as the entries and at most twice as
    many. *)
Theorem main_generate_outcome (format_1f : float -> string)
    (entries : list LogEntry.t) :
  entries <> [] ->
  log_in_range entries ->
  valid_times entries ->
  ((exists x, In x entries /\ logged_at_week_end x) ->
   main_generate format_1f entries = Raise TypeError)
  /\ ((forall x, In x entries -> ~ logged_at_week_end x) ->
      exists (rows : list row) (out : list string),
        main_generate format_1f entries = Ok (rows, out)
        /\ sorted_by_date rows
        /\ (forall x, In x entries -> In (raw_row x) rows)
        /\ (List.length entries <= List.length rows
            <= 2 * List.length entries)%nat).
Proof.
  intros Hne Hr Hvt.
  destruct (parse_log_nonempty init entries Hne)
    as (sorted & first & Hp & _).
  set (self := mkWeightLog _ _ _ sorted _) in Hp.
  destruct (parse_log_range init self entries Hp)
    as (_ & _ & _ & _ & _ & _ & _ & _ & Hperm & _ & Hwa).
  destruct (parse_log_dates_in_range init self entries Hp Hr)
    as (s & e & Hs & He & Hrange & Hall & _).
  destruct (compute_weekly_averages_spec self s e Hs He Hrange) as [_ Hc].
  rewrite Hwa in Hc. cbn [weekly_averages init app] in Hc.
  set (appended := flat_map _ _) in Hc.
  set (self' := mkWeightLog _ _ _ _ appended) in Hc.
  assert (Hmain : main_generate format_1f entries
                  = match write_to_csv format_1f self' with
                    | Ok rows =>
                        Ok (rows, match boundaries s e with
                                  | [] => [SPAN_MESSAGE] | _ => [] end)
                    | Raise err => Raise err
                    end).
  { unfold main_generate. rewrite Hp. cbn [bind]. rewrite Hc. reflexivity. }
  rewrite Hmain. split.
  - intros (x & Hx & Hend).
    rewrite write_to_csv_tied_raises; [reflexivity|].
    assert (Hx' : In x (log_entries self))
      by (eapply Permutation_in; [exact Hperm | exact Hx]).
    destruct (week_end_entry_shares_its_instant (log_entries self) s e x
                Hx' (Hall x Hx') Hend) as (wa & Hin & Heq).
    exists x, wa. auto.
  - intros Hnone.
    destruct (write_to_csv_untied_rows format_1f self') as (rows & Hw & Hpr & Hsr).
    { intros (x & wa & Hx & Hin & Heq).
      cbn [log_entries weekly_averages self'] in Hx, Hin.
      assert (Hx' : In x entries)
        by (eapply Permutation_in; [symmetry; exact Hperm | exact Hx]).
      apply (Hnone x Hx').
      unfold appended in Hin.
      apply in_flat_map in Hin as (w & Hwk & Hin).
      apply emitted_In in Hin as [_ ->].
      destruct (weeks_In _ _ _ Hwk) as (i & Hi & _).
      apply nth_error_In, boundaries_In in Hi as [_ Hsun].
      cbn [WeeklyAverage.datetime] in Heq.
      apply datetime_to_epoch_inj in Heq;
        [|now apply Hvt | unfold valid_time, combine; cbn; lia].
      unfold logged_at_week_end, entry_date. rewrite Heq. cbn. auto. }
    rewrite Hw. eexists rows, _. split; [reflexivity|].
    split; [exact Hsr|].
    cbn [log_entries weekly_averages self'] in Hpr. split.
    + intros x Hx. eapply Permutation_in; [exact Hpr|].
      apply in_or_app. left. apply in_map.
      eapply Permutation_in; [exact Hperm | exact Hx].
    + rewrite <- (Permutation_length Hpr), length_app, !length_map.
      rewrite (Permutation_length Hperm).
      pose proof (appended_le_entries (log_entries self)
                    (n_weeks (first_sunday s) e) (first_sunday s)) as Hle.
      fold (boundaries s e) in Hle. fold appended in Hle.
      cbn [log_entries self] in *. lia.
Qed.

Lemma scenario_valid_times : valid_times scenario_entries.
Proof.
  intros x [<- | [<- | [<- | []]]]; unfold valid_time; cbn; lia.
Qed.

Lemma main_generate_outcome_witness :
  let format_1f := fun _ : float => ""%string in
  (scenario_entries <> [] /\ log_in_range scenario_entries
   /\ valid_times scenario_entries)
  /\ ((exists x, In x scenario_entries /\ logged_at_week_end x) ->
      main_generate format_1f scenario_entries = Raise TypeError)
  /\ ((forall x, In x scenario_entries -> ~ logged_at_week_end x) ->
      exists (rows : list row) (out : list string),
        main_generate format_1f scenario_entries = Ok (rows, out)
        /\ sorted_by_date rows
        /\ (forall x, In x scenario_entries -> In (raw_row x) rows)
        /\ (List.length scenario_entries <= List.length rows
            <= 2 * List.length scenario_entries)%nat).
Proof.
  cbv zeta.
  assert (Hne : scenario_entries <> []) by discriminate.
  split; [split; [exact Hne | split;
            [exact scenario_in_range | exact scenario_valid_times]]|].
  exact (main_generate_outcome _ scenario_entries Hne scenario_in_range
           scenario_valid_times).
Defined.

(* ================================================================= *)
(** ** Ordinals and calendar dates *)

Lemma all_upto_spec (f : Z -> bool) (fuel : nat) :
  forall n, all_upto f fuel n = true ->
            forall k, n <= k < n + Z.of_nat fuel -> f k = true.
Proof.
  induction fuel as [|fuel IH]; intros n H k Hk; [lia|].
  cbn [all_upto] in H. apply andb_true_iff in H as [Hn H].
  destruct (Z.eq_dec k n) as [->|Hne]; [exact Hn|].
  apply (IH (n + 1) H). lia.
Qed.

(** The 146097 days of the first cycle of 400 years, one by one. *)
Lemma ymd_checks_first_cycle :
  all_upto ymd_checks (Z.to_nat DI400Y) 1 = true.
Proof. vm_compute. reflexivity. Qed.

Lemma is_leap_shift (y : Z) : is_leap (y + 400) = is_leap y.
Proof.
  unfold is_leap.
  replace ((y + 400) mod 4) with (y mod 4)
    by (replace (y + 400) with (y + 100 * 4) by lia; now rewrite Z.mod_add).
  replace ((y + 400) mod 100) with (y mod 100)
    by (replace (y + 400) with (y + 4 * 100) by lia; now rewrite Z.mod_add).
  replace ((y + 400) mod 400) with (y mod 400)
    by (replace (y + 400) with (y + 1 * 400) by lia; now rewrite Z.mod_add).
  reflexivity.
Qed.

Lemma days_before_year_shift (y : Z) :
  days_before_year (y + 400) = days_before_year y + DI400Y.
Proof.
  unfold days_before_year, DI400Y. cbv zeta.
  replace (y + 400 - 1) with (y - 1 + 400) by lia.
  replace ((y - 1 + 400) / 4) with ((y - 1) / 4 + 100)
    by (replace (y - 1 + 400) with (y - 1 + 100 * 4) by lia;
        now rewrite Z.div_add).
  replace ((y - 1 + 400) / 100) with ((y - 1) / 100 + 4)
    by (replace (y - 1 + 400) with (y - 1 + 4 * 100) by lia;
        now rewrite Z.div_add).
  replace ((y - 1 + 400) / 400) with ((y - 1) / 400 + 1)
    by (replace (y - 1 + 400) with (y - 1 + 1 * 400) by lia;
        now rewrite Z.div_add).
  lia.
Qed.

Lemma ymd2ord_shift (y m d : Z) :
  ymd2ord (y + 400) m d = ymd2ord y m d + DI400Y.
Proof.
  unfold ymd2ord, days_before_month.
  rewrite days_before_year_shift, is_leap_shift. lia.
Qed.

Lemma days_in_month_shift (y m : Z) :
  days_in_month (y + 400) m = days_in_month y m.
Proof. unfold days_in_month. now rewrite is_leap_shift. Qed.

Lemma ord2ymd_shift (n : Z) :
  ord2ymd (n + DI400Y)
  = let '(y, m, d) := ord2ymd n in (y + 400, m, d).
Proof.
  unfold ord2ymd. cbv zeta.
  replace (n + DI400Y - 1) with (n - 1 + 1 * DI400Y) by lia.
  rewrite Z.div_add, Z.mod_add by (unfold DI400Y; lia).
  set (q := (n - 1) / DI400Y).
  set (r := (n - 1) mod DI400Y).
  set (n100 := r / DI100Y). set (r100 := r mod DI100Y).
  set (n4 := r100 / DI4Y). set (r4 := r100 mod DI4Y).
  set (n1 := r4 / 365). set (r1 := r4 mod 365).
  destruct ((n1 =? 4) || (n100 =? 4)); [f_equal; f_equal; lia|].
  set (leapyear := (n1 =? 3) && (negb (n4 =? 24) || (n100 =? 3))).
  set (month := Z.shiftr (r1 + 50) 5).
  set (preceding := nth (Z.to_nat (month - 1)) DAYS_BEFORE_MONTH 0
                    + (if (2 <? month) && leapyear then 1 else 0)).
  destruct (r1 <? preceding); f_equal; f_equal; lia.
Qed.

Lemma ymd_checks_shift (n : Z) : ymd_checks (n + DI400Y) = ymd_checks n.
Proof.
  unfold ymd_checks. rewrite ord2ymd_shift.
  destruct (ord2ymd n) as [[y m] d].
  rewrite ymd2ord_shift, days_in_month_shift.
  replace (ymd2ord y m d + DI400Y =? n + DI400Y) with (ymd2ord y m d =? n);
    [reflexivity|].
  destruct (Z.eqb_spec (ymd2ord y m d) n), (Z.eqb_spec (ymd2ord y m d + DI400Y)
                                              (n + DI400Y)); lia || reflexivity.
Qed.

Lemma ymd_checks_cycles (k : nat) :
  forall r, 1 <= r <= DI400Y ->
            ymd_checks (r + Z.of_nat k * DI400Y) = true.
Proof.
  induction k as [|k IH]; intros r Hr.
  - replace (r + Z.of_nat 0 * DI400Y) with r by lia.
    apply (all_upto_spec _ _ _ ymd_checks_first_cycle).
    rewrite Z2Nat.id by (unfold DI400Y; lia). lia.
  - replace (r + Z.of_nat (S k) * DI400Y)
      with (r + Z.of_nat k * DI400Y + DI400Y) by lia.
    rewrite ymd_checks_shift. now apply IH.
Qed.

(** [ord2ymd] gives the calendar date of every ordinal from 1 on. *)
Lemma ord2ymd_ymd2ord (n : Z) :
  1 <= n ->
  let '(y, m, d) := ord2ymd n in
  ymd2ord y m d = n /\ 1 <= m <= 12 /\ 1 <= d <= days_in_month y m.
Proof.
  intros Hn.
  pose proof (Z.div_mod (n - 1) DI400Y ltac:(unfold DI400Y; lia)) as Hdm.
  pose proof (Z.mod_pos_bound (n - 1) DI400Y ltac:(unfold DI400Y; lia)) as Hr.
  pose proof (Z.div_pos (n - 1) DI400Y ltac:(lia) ltac:(unfold DI400Y; lia))
    as Hq.
  pose proof (ymd_checks_cycles (Z.to_nat ((n - 1) / DI400Y))
                ((n - 1) mod DI400Y + 1) ltac:(lia)) as Hc.
  rewrite Z2Nat.id in Hc by exact Hq.
  replace ((n - 1) mod DI400Y + 1 + (n - 1) / DI400Y * DI400Y) with n in Hc
    by lia.
  unfold ymd_checks in Hc. destruct (ord2ymd n) as [[y m] d].
  rewrite !andb_true_iff, Z.eqb_eq, !Z.leb_le in Hc. tauto.
Qed.

(* ================================================================= *)
(** ** Timestamps as text *)

Lemma digit_char_in_range (k : Z) :
  0 <= k <= 9 -> in_range "0" "9" (digit_char k) = true.
Proof. intros H. split_digit k; reflexivity. Qed.

Lemma digit_value_char (k : Z) : 0 <= k <= 9 -> digit_value (digit_char k) = k.
Proof. intros H. split_digit k; reflexivity. Qed.

Lemma digit_char_not_space (k : Z) :
  0 <= k <= 9 -> Ascii.eqb (digit_char k) " " = false.
Proof. intros H. split_digit k; reflexivity. Qed.

(** The expression of every directive takes the two digits (four for the
    year) that [strftime] writes. *)
Lemma match_year (a b c d : Z) (R : regex) (rest : string) (found : groups) :
  0 <= a <= 9 -> 0 <= b <= 9 -> 0 <= c <= 9 -> 0 <= d <= 9 ->
  rmatch (Cat (Group "Y" (Cat digit (Cat digit (Cat digit digit))))
            (Cat (Lit "-") R))
    (String (digit_char a) (String (digit_char b) (String (digit_char c)
       (String (digit_char d) (String "-" rest)))))
    found (fun _ rest found => Some (rest, found))
  = rmatch R rest
      (("Y"%char, String (digit_char a) (String (digit_char b)
                 (String (digit_char c) (String (digit_char d) EmptyString))))
       :: found)
      (fun _ rest found => Some (rest, found)).
Proof.
  intros Ha Hb Hc Hd. cbn [rmatch]. unfold digit. cbn [rmatch].
  rewrite !digit_char_in_range by assumption.
  cbn. reflexivity.
Qed.

Lemma match_month (a b : Z) (R : regex) (rest : string) (found : groups) :
  0 <= a <= 9 -> 0 <= b <= 9 -> 1 <= 10 * a + b <= 12 ->
  rmatch (Cat (Group "m" (Alt (Cat (Lit "1") (Range "0" "2"))
                         (Alt (Cat (Lit "0") (Range "1" "9"))
                              (Range "1" "9"))))
            (Cat (Lit "-") R))
    (String (digit_char a) (String (digit_char b) (String "-" rest)))
    found (fun _ rest found => Some (rest, found))
  = rmatch R rest
      (("m"%char, String (digit_char a) (String (digit_char b) EmptyString))
       :: found)
      (fun _ rest found => Some (rest, found)).
Proof.
  intros Ha Hb Hv.
  split_digit a; try lia; split_digit b; try lia; cbn;
    destruct (rmatch R rest _ _); reflexivity.
Qed.

Lemma match_day (a b : Z) (R : regex) (rest : string) (found : groups) :
  0 <= a <= 9 -> 0 <= b <= 9 -> 1 <= 10 * a + b <= 31 ->
  rmatch (Cat (Group "d" (Alt (Cat (Lit "3") (Range "0" "1"))
                         (Alt (Cat (Range "1" "2") digit)
                         (Alt (Cat (Lit "0") (Range "1" "9"))
                         (Alt (Range "1" "9")
                              (Cat (Lit " ") (Range "1" "9")))))))
            (Cat (Lit "-") R))
    (String (digit_char a) (String (digit_char b) (String "-" rest)))
    found (fun _ rest found => Some (rest, found))
  = rmatch R rest
      (("d"%char, String (digit_char a) (String (digit_char b) EmptyString))
       :: found)
      (fun _ rest found => Some (rest, found)).
Proof.
  intros Ha Hb Hv.
  split_digit a; try lia; split_digit b; try lia; cbn;
    destruct (rmatch R rest _ _); reflexivity.
Qed.

Lemma match_hour (a b : Z) (R : regex) (rest : string) (found : groups) :
  0 <= a <= 9 -> 0 <= b <= 9 -> 0 <= 10 * a + b <= 23 ->
  rmatch (Cat (Group "H" (Alt (Cat (Lit "2") (Range "0" "3"))
                         (Alt (Cat (Range "0" "1") digit)
                              digit)))
            (Cat (Lit ":") R))
    (String (digit_char a) (String (digit_char b) (String ":" rest)))
    found (fun _ rest found => Some (rest, found))
  = rmatch R rest
      (("H"%char, String (digit_char a) (String (digit_char b) EmptyString))
       :: found)
      (fun _ rest found => Some (rest, found)).
Proof.
  intros Ha Hb Hv.
  split_digit a; try lia; split_digit b; try lia; cbn;
    destruct (rmatch R rest _ _); reflexivity.
Qed.

Lemma match_minute (a b : Z) (found : groups) :
  0 <= a <= 9 -> 0 <= b <= 9 -> 0 <= 10 * a + b <= 59 ->
  rmatch (Cat (Group "M" (Alt (Cat (Range "0" "5") digit) digit)) Eps)
    (String (digit_char a) (String (digit_char b) EmptyString))
    found (fun _ rest found => Some (rest, found))
  = Some (EmptyString,
          ("M"%char, String (digit_char a) (String (digit_char b) EmptyString))
          :: found).
Proof.
  intros Ha Hb Hv.
  split_digit a; try lia; split_digit b; try lia; reflexivity.
Qed.

Lemma int_two_digits (a b : Z) :
  0 <= a <= 9 -> 0 <= b <= 9 ->
  int (String (digit_char a) (String (digit_char b) EmptyString)) = 10 * a + b.
Proof.
  intros Ha Hb. unfold int. cbn [int_from].
  rewrite !digit_char_not_space, !digit_value_char by assumption. lia.
Qed.

Lemma int_four_digits (a b c d : Z) :
  0 <= a <= 9 -> 0 <= b <= 9 -> 0 <= c <= 9 -> 0 <= d <= 9 ->
  int (String (digit_char a) (String (digit_char b) (String (digit_char c)
         (String (digit_char d) EmptyString))))
  = 1000 * a + 100 * b + 10 * c + d.
Proof.
  intros Ha Hb Hc Hd. unfold int. cbn [int_from].
  rewrite !digit_char_not_space, !digit_value_char by assumption. lia.
Qed.

Lemma decimal_four_digits (y : Z) :
  1000 <= y <= 9999 ->
  exists a b c d,
    0 <= a <= 9 /\ 0 <= b <= 9 /\ 0 <= c <= 9 /\ 0 <= d <= 9
    /\ 1000 * a + 100 * b + 10 * c + d = y
    /\ decimal y
       = String (digit_char a) (String (digit_char b) (String (digit_char c)
           (String (digit_char d) EmptyString))).
Proof.
  intros Hy.
  pose proof (Z.div_mod y 10 ltac:(lia)) as H1.
  pose proof (Z.mod_pos_bound y 10 ltac:(lia)) as B1.
  pose proof (Z.div_mod (y / 10) 10 ltac:(lia)) as H2.
  pose proof (Z.mod_pos_bound (y / 10) 10 ltac:(lia)) as B2.
  pose proof (Z.div_mod (y / 10 / 10) 10 ltac:(lia)) as H3.
  pose proof (Z.mod_pos_bound (y / 10 / 10) 10 ltac:(lia)) as B3.
  pose proof (Z.div_mod (y / 10 / 10 / 10) 10 ltac:(lia)) as H4.
  pose proof (Z.mod_pos_bound (y / 10 / 10 / 10) 10 ltac:(lia)) as B4.
  exists ((y / 10 / 10 / 10) mod 10), ((y / 10 / 10) mod 10),
         ((y / 10) mod 10), (y mod 10).
  repeat (split; [lia|]).
  unfold decimal. cbn [decimal_digits].
  destruct (Z.ltb_spec y 10); [lia|].
  destruct (Z.ltb_spec (y / 10) 10); [lia|].
  destruct (Z.ltb_spec (y / 10 / 10) 10); [lia|].
  now destruct (y / 10 / 10 / 10 <? 10).
Qed.

Lemma two_digits_spec (v : Z) :
  0 <= v <= 99 ->
  exists a b, 0 <= a <= 9 /\ 0 <= b <= 9 /\ 10 * a + b = v
              /\ two_digits v
                 = String (digit_char a) (String (digit_char b) EmptyString).
Proof.
  intros Hv.
  pose proof (Z.div_mod v 10 ltac:(lia)).
  pose proof (Z.mod_pos_bound v 10 ltac:(lia)).
  exists (v / 10), (v mod 10). repeat (split; [lia|]). reflexivity.
Qed.

Lemma days_before_year_mono (y y' : Z) :
  y <= y' -> days_before_year y <= days_before_year y'.
Proof.
  intros H. unfold days_before_year. cbv zeta.
  pose proof (Z.div_le_mono (y - 1) (y' - 1) 4 ltac:(lia) ltac:(lia)).
  pose proof (Z.div_le_mono (y - 1) (y' - 1) 400 ltac:(lia) ltac:(lia)).
  pose proof (Z.div_mod (y - 1) 100 ltac:(lia)).
  pose proof (Z.mod_pos_bound (y - 1) 100 ltac:(lia)).
  pose proof (Z.div_mod (y' - 1) 100 ltac:(lia)).
  pose proof (Z.mod_pos_bound (y' - 1) 100 ltac:(lia)).
  lia.
Qed.

Lemma days_before_month_bounds (y m : Z) :
  1 <= m <= 12 -> 0 <= days_before_month y m <= 335.
Proof.
  intros H. unfold days_before_month.
  assert (Hm : m = 1 \/ m = 2 \/ m = 3 \/ m = 4 \/ m = 5 \/ m = 6 \/ m = 7
               \/ m = 8 \/ m = 9 \/ m = 10 \/ m = 11 \/ m = 12) by lia.
  repeat (destruct Hm as [-> | Hm]); try subst m;
    destruct (is_leap y); vm_compute; split; discriminate.
Qed.

Lemma days_in_month_bounds (y m : Z) :
  1 <= m <= 12 -> 28 <= days_in_month y m <= 31.
Proof.
  intros H. unfold days_in_month.
  assert (Hm : m = 1 \/ m = 2 \/ m = 3 \/ m = 4 \/ m = 5 \/ m = 6 \/ m = 7
               \/ m = 8 \/ m = 9 \/ m = 10 \/ m = 11 \/ m = 12) by lia.
  repeat (destruct Hm as [-> | Hm]); try subst m;
    destruct (is_leap y); vm_compute; split; discriminate.
Qed.

(** The year of a valid ordinal. *)
Lemma ord2ymd_year (n : Z) :
  valid_date n ->
  let '(y, m, d) := ord2ymd n in
  1 <= y <= 9999 /\ ymd2ord y m d = n /\ 1 <= m <= 12
  /\ 1 <= d <= days_in_month y m.
Proof.
  intros [Hlo Hhi]. unfold MINORD, MAXORD in *.
  pose proof (ord2ymd_ymd2ord n Hlo) as H.
  destruct (ord2ymd n) as [[y m] d]. destruct H as (Ho & Hm & Hd).
  split; [|tauto].
  pose proof (days_before_month_bounds y m Hm).
  pose proof (days_in_month_bounds y m Hm).
  unfold ymd2ord in Ho. split.
  - destruct (Z_le_gt_dec 1 y) as [|Hy]; [assumption|].
    pose proof (days_before_year_mono y 0 ltac:(lia)) as Hmono.
    change (days_before_year 0) with (-366) in Hmono. lia.
  - destruct (Z_le_gt_dec y 9999) as [|Hy]; [assumption|].
    pose proof (days_before_year_mono 10000 y ltac:(lia)) as Hmono.
    change (days_before_year 10000) with 3652059 in Hmono. lia.
Qed.

(** [strptime] reads what [strftime] wrote. *)
Lemma strptime_strftime (t : datetime) :
  valid_date (dt_date t) -> valid_time t -> 1000 <= year_of t ->
  strptime (strftime t) = inr t.
Proof.
  intros Hd [Hh Hm] Hy. unfold year_of in Hy. unfold strftime.
  pose proof (ord2ymd_year (dt_date t) Hd) as Hymd.
  destruct (ord2ymd (dt_date t)) as [[y m] d]. cbn [fst] in Hy.
  destruct Hymd as (Hyr & Hord & Hmr & Hdr).
  pose proof (days_in_month_bounds y m Hmr) as Hdim.
  destruct (decimal_four_digits y ltac:(lia))
    as (y1 & y2 & y3 & y4 & ? & ? & ? & ? & Hyv & ->).
  destruct (two_digits_spec m ltac:(lia)) as (m1 & m2 & ? & ? & Hmv & ->).
  destruct (two_digits_spec d ltac:(lia)) as (d1 & d2 & ? & ? & Hdv & ->).
  destruct (two_digits_spec (dt_hour t) ltac:(lia))
    as (h1 & h2 & ? & ? & Hhv & ->).
  destruct (two_digits_spec (dt_minute t) ltac:(lia))
    as (n1 & n2 & ? & ? & Hnv & ->).
  cbn [append]. unfold strptime, TIME_RE. fold digit.
  rewrite match_year, match_month, match_day, match_hour, match_minute
    by (assumption || lia).
  cbn [String.eqb negb group Ascii.eqb Bool.eqb].
  rewrite int_four_digits, !int_two_digits by assumption.
  rewrite Hyv, Hmv, Hdv, Hhv, Hnv.
  replace (check_date_fields y m d) with true.
  2:{ symmetry. unfold check_date_fields.
      rewrite !andb_true_iff, !Z.leb_le. lia. }
  replace (check_time_fields (dt_hour t) (dt_minute t)) with true.
  2:{ symmetry. unfold check_time_fields.
      rewrite !andb_true_iff, !Z.leb_le. lia. }
  cbn [andb]. rewrite Hord. now destruct t.
Qed.

Lemma append_assoc (a b c : string) : ((a ++ b) ++ c = a ++ (b ++ c))%string.
Proof. induction a as [| x a IH]; cbn; [reflexivity | now rewrite IH]. Qed.

Lemma append_length (a b : string) :
  String.length (a ++ b) = (String.length a + String.length b)%nat.
Proof. induction a as [| x a IH]; cbn; [reflexivity | now rewrite IH]. Qed.

Lemma append_nil_r (s : string) : (s ++ EmptyString)%string = s.
Proof. induction s as [| x s IH]; cbn; [reflexivity | now rewrite IH]. Qed.

Lemma count_app (c : ascii) (a b : string) :
  count c (a ++ b) = (count c a + count c b)%nat.
Proof. induction a as [| x a IH]; cbn; [reflexivity | rewrite IH; lia]. Qed.

(** What a match took from the text: its length lies between the bounds
    of the expression, and it holds no character that the expression
    avoids. *)
Lemma rmatch_sound {A : Type} (r : regex) :
  forall (s : string) (found : groups)
         (k : string -> string -> groups -> option A) (a : A),
    rmatch r s found k = Some a ->
    exists m rest found',
      s = (m ++ rest)%string
      /\ (min_len r <= String.length m <= max_len r)%nat
      /\ (forall c, avoids c r = true -> count c m = 0%nat)
      /\ k m rest found' = Some a.
Proof.
  induction r as [| c | lo hi | r1 IH1 r2 IH2 | r1 IH1 r2 IH2 | name r IH];
    intros s found k a H; cbn [rmatch] in H.
  - exists EmptyString, s, found. cbn. auto.
  - destruct s as [| x s']; [discriminate |].
    destruct (Ascii.eqb x c) eqn:Ex; [| discriminate].
    exists (String x EmptyString), s', found. cbn.
    repeat split; [lia | lia | | exact H].
    intros c'. apply Ascii.eqb_eq in Ex. subst x.
    now destruct (Ascii.eqb c c').
  - destruct s as [| x s']; [discriminate |].
    destruct (in_range lo hi x) eqn:Ex; [| discriminate].
    exists (String x EmptyString), s', found. cbn.
    repeat split; [lia | lia | | exact H].
    intros c'. destruct (Ascii.eqb_spec x c') as [-> |]; [| reflexivity].
    now rewrite Ex.
  - apply IH1 in H. destruct H as (m1 & s1 & found1 & -> & Hl1 & Hc1 & H).
    apply IH2 in H. destruct H as (m2 & s2 & found2 & -> & Hl2 & Hc2 & H).
    exists (m1 ++ m2)%string, s2, found2.
    rewrite append_assoc, append_length. cbn [min_len max_len avoids].
    repeat split; [lia | lia | | exact H].
    intros c [H1 H2]%andb_true_iff.
    now rewrite count_app, Hc1, Hc2.
  - destruct (rmatch r1 s found k) as [a1 |] eqn:E1.
    + injection H as ->. apply IH1 in E1.
      destruct E1 as (m & rest & found' & -> & Hl & Hc & E1).
      exists m, rest, found'. cbn [min_len max_len avoids].
      repeat split; [lia | lia | | exact E1].
      intros c [H1 H2]%andb_true_iff. now apply Hc.
    + apply IH2 in H. destruct H as (m & rest & found' & -> & Hl & Hc & H).
      exists m, rest, found'. cbn [min_len max_len avoids].
      repeat split; [lia | lia | | exact H].
      intros c [H1 H2]%andb_true_iff. now apply Hc.
  - apply IH in H. destruct H as (m & rest & found' & -> & Hl & Hc & H).
    exists m, rest, ((name, m) :: found'). cbn [min_len max_len avoids]. auto.
Qed.

(** The texts that [strptime] converts. *)
Lemma strptime_text (s : string) (t : datetime) :
  strptime s = inr t ->
  (12 <= String.length s <= 16)%nat
  /\ (forall c, avoids c TIME_RE = true -> count c s = 0%nat)
  /\ exists x s', s = String x s' /\ in_range "0" "9" x = true.
Proof.
  unfold strptime. intros H.
  destruct (rmatch TIME_RE s [] _) as [[rest found] |] eqn:E; [| discriminate].
  destruct (String.eqb rest EmptyString) eqn:Er; [| discriminate].
  apply String.eqb_eq in Er. subst rest. clear H.
  split; [| split].
  - apply rmatch_sound in E. destruct E as (m & rest & found' & -> & Hl & _ & E).
    injection E as -> _. rewrite append_length. cbn in Hl |- *. lia.
  - apply rmatch_sound in E. destruct E as (m & rest & found' & -> & _ & Hc & E).
    injection E as -> _. now rewrite append_nil_r.
  - destruct s as [| x s']; [discriminate |].
    exists x, s'. split; [reflexivity |].
    unfold TIME_RE in E. cbn [rmatch] in E.
    now destruct (in_range "0" "9" x).
Qed.

Lemma month_ends_in_year (y m : Z) :
  1 <= m <= 12 ->
  0 <= days_before_month y m
  /\ days_before_month y m + days_in_month y m
     <= (if is_leap y then 366 else 365).
Proof.
  intros Hm.
  assert (H : m = 1 \/ m = 2 \/ m = 3 \/ m = 4 \/ m = 5 \/ m = 6 \/ m = 7
              \/ m = 8 \/ m = 9 \/ m = 10 \/ m = 11 \/ m = 12) by lia.
  unfold days_before_month, days_in_month.
  destruct (is_leap y);
    repeat (destruct H as [-> | H]); try subst m;
    vm_compute; split; discriminate.
Qed.

(** The date that passed the checks of the constructor is one of [date]. *)
Lemma check_date_fields_valid (y m d : Z) :
  check_date_fields y m d = true -> valid_date (ymd2ord y m d).
Proof.
  unfold check_date_fields. rewrite !andb_true_iff, !Z.leb_le.
  intros [[[[[Hy1 Hy2] Hm1] Hm2] Hd1] Hd2].
  pose proof (month_ends_in_year y m ltac:(lia)) as Hsum.
  unfold valid_date, ymd2ord, MINORD, MAXORD.
  pose proof (days_before_year_mono 1 y ltac:(lia)) as Hlo.
  change (days_before_year 1) with 0 in Hlo.
  destruct (Z.eq_dec y 9999) as [-> | Hne].
  - change (is_leap 9999) with false in Hsum.
    change (days_before_year 9999) with 3651694. lia.
  - pose proof (days_before_year_mono y 9998 ltac:(lia)) as Hhi.
    change (days_before_year 9998) with 3651329 in Hhi.
    destruct (is_leap y); lia.
Qed.

Lemma datestring_to_datetime_cases (s : string) :
  (exists e, strptime s = inl e
             /\ datestring_to_datetime s = Raise (SystemExit FORMAT_MESSAGE))
  \/ (exists t, strptime s = inr t
                /\ datestring_to_datetime s = Ok (inr t)
                /\ valid_date (dt_date t) /\ valid_time t).
Proof.
  unfold datestring_to_datetime, inspect_datestring_format.
  destruct (strptime s) as [e | t] eqn:E; [left; eauto | right].
  exists t. cbn [bind]. split; [reflexivity |]. split; [reflexivity |].
  unfold strptime in E.
  destruct (rmatch TIME_RE s [] _) as [[rest found] |]; [| discriminate].
  destruct (negb _); [discriminate |].
  destruct (check_date_fields _ _ _) eqn:Ed; [| discriminate].
  destruct (check_time_fields _ _) eqn:Et; [| discriminate].
  cbn [andb] in E. injection E as <-. cbn [dt_date dt_hour dt_minute].
  split; [now apply check_date_fields_valid |].
  unfold check_time_fields in Et.
  rewrite !andb_true_iff, !Z.leb_le in Et. unfold valid_time. cbn. lia.
Qed.

(** [datetime_to_datestring] and back: for a datetime at one of the dates
    of [date], at a time of day and from the year 1000 on, the text has 16
    characters, [datestring_to_datetime] converts it to the same datetime,
    and [datestring_to_epoch] of it is [datetime_to_epoch] of the
    datetime. *)
Theorem datestring_round_trip (t : datetime) :
  valid_date (dt_date t) -> valid_time t -> 1000 <= year_of t ->
  datestring_to_datetime (datetime_to_datestring t) = Ok (inr t)
  /\ datestring_to_epoch (datetime_to_datestring t)
     = Ok (inr (datetime_to_epoch t))
  /\ String.length (datetime_to_datestring t) = 16%nat.
Proof.
  intros Hd Ht Hy.
  assert (H : datestring_to_datetime (datetime_to_datestring t) = Ok (inr t)).
  { unfold datestring_to_datetime, inspect_datestring_format,
      datetime_to_datestring.
    now rewrite (strptime_strftime t Hd Ht Hy). }
  split; [exact H |]. split.
  - unfold datestring_to_epoch. now rewrite H.
  - unfold datetime_to_datestring, strftime.
    pose proof (ord2ymd_year (dt_date t) Hd) as Hymd.
    unfold year_of in Hy.
    destruct (ord2ymd (dt_date t)) as [[y m] d]. cbn [fst] in Hy.
    destruct (decimal_four_digits y ltac:(lia))
      as (y1 & y2 & y3 & y4 & _ & _ & _ & _ & _ & ->).
    reflexivity.
Qed.

Lemma datestring_round_trip_witness :
  let t := mkdatetime (ymd2ord 2020 1 5) 7 3 in
  (valid_date (dt_date t) /\ valid_time t /\ 1000 <= year_of t)
  /\ datestring_to_datetime (datetime_to_datestring t) = Ok (inr t)
  /\ datestring_to_epoch (datetime_to_datestring t)
     = Ok (inr (datetime_to_epoch t))
  /\ String.length (datetime_to_datestring t) = 16%nat.
Proof.
  cbv zeta.
  assert (Hd : valid_date (dt_date (mkdatetime (ymd2ord 2020 1 5) 7 3)))
    by closed_dates.
  assert (Ht : valid_time (mkdatetime (ymd2ord 2020 1 5) 7 3))
    by (unfold valid_time; cbn; lia).
  assert (Hy : 1000 <= year_of (mkdatetime (ymd2ord 2020 1 5) 7 3))
    by (vm_compute; discriminate).
  split; [repeat split; assumption || apply Hd || apply Ht |].
  exact (datestring_round_trip _ Hd Ht Hy).
Defined.

(** What [datestring_to_datetime] does with a text, whatever it holds.
    Either the program ends through [error] with the message of
    [inspect_datestring_format], or a datetime is returned: the
    [ValueError] of the second [strptime] never shows.  The datetime is
    then at one of the dates of [date] and at a time of day, the text has
    12 to 16 characters and no comma, and [datestring_to_epoch] returns
    the epoch value of that datetime. *)
Theorem datestring_to_datetime_outcome (s : string) :
  (datestring_to_datetime s = Raise (SystemExit FORMAT_MESSAGE)
   /\ datestring_to_epoch s = Raise (SystemExit FORMAT_MESSAGE))
  \/ exists t,
       datestring_to_datetime s = Ok (inr t)
       /\ datestring_to_epoch s = Ok (inr (datetime_to_epoch t))
       /\ valid_date (dt_date t) /\ valid_time t
       /\ (12 <= String.length s <= 16)%nat
       /\ count "," s = 0%nat.
Proof.
  unfold datestring_to_epoch.
  destruct (datestring_to_datetime_cases s)
    as [(e & _ & ->) | (t & Hs & -> & Hd & Ht)]; [left; auto | right].
  exists t. destruct (strptime_text s t Hs) as (Hlen & Hc & _).
  repeat split; try assumption; try lia; try apply Hd; try apply Ht.
  now apply Hc.
Qed.

(* ================================================================= *)
(** ** Reading and recording *)

Lemma space_is_not (c x : ascii) :
  isspace c = false -> isspace x = true -> Ascii.eqb x c = false.
Proof.
  intros Hc Hx. destruct (Ascii.eqb_spec x c) as [-> |]; congruence.
Qed.

Lemma count_lstrip (c : ascii) (s : string) :
  isspace c = false -> count c (lstrip s) = count c s.
Proof.
  intros Hc. induction s as [| x s IH]; cbn [lstrip]; [reflexivity |].
  destruct (isspace x) eqn:Hx; [| reflexivity].
  cbn [count]. now rewrite (space_is_not c x Hc Hx), IH.
Qed.

Lemma count_rstrip (c : ascii) (s : string) :
  isspace c = false -> count c (rstrip s) = count c s.
Proof.
  intros Hc. induction s as [| x s IH]; cbn [rstrip]; [reflexivity |].
  cbn [count]. rewrite <- IH.
  destruct (rstrip s) as [| k kept]; [| reflexivity].
  destruct (isspace x) eqn:Hx; cbn [count].
  - now rewrite (space_is_not c x Hc Hx).
  - reflexivity.
Qed.

Lemma count_strip (c : ascii) (s : string) :
  isspace c = false -> count c (strip s) = count c s.
Proof.
  intros Hc. unfold strip. now rewrite count_rstrip, count_lstrip.
Qed.

Lemma split_length (sep : ascii) (s : string) :
  List.length (split sep s) = S (count sep s).
Proof.
  induction s as [| x s IH]; cbn [split count]; [reflexivity |].
  destruct (Ascii.eqb x sep); cbn [List.length]; [now rewrite IH |].
  destruct (split sep s) as [| part parts]; [discriminate |].
  cbn [List.length] in *. lia.
Qed.

Lemma split_app (sep : ascii) (a b : string) :
  count sep a = 0%nat ->
  split sep (a ++ String sep b) = a :: split sep b.
Proof.
  induction a as [| x a IH]; cbn [append split count]; intros H.
  - now rewrite Ascii.eqb_refl.
  - destruct (Ascii.eqb x sep); [discriminate |]. now rewrite IH.
Qed.

Lemma split_whole (sep : ascii) (s : string) :
  count sep s = 0%nat -> split sep s = [s].
Proof.
  induction s as [| x s IH]; cbn [split count]; intros H; [reflexivity |].
  destruct (Ascii.eqb x sep); [discriminate |]. now rewrite IH.
Qed.

Lemma rstrip_app (a : string) (c : ascii) (w : string) :
  isspace c = false ->
  rstrip (a ++ String c w) = (a ++ String c (rstrip w))%string.
Proof.
  intros Hc. induction a as [| x a IH]; cbn [append].
  - cbn [rstrip]. rewrite Hc. now destruct (rstrip w).
  - cbn [rstrip]. rewrite IH. now destruct a.
Qed.

Lemma read_lines_spec (float_of_str : string -> option float)
    (infile : list string) :
  forall log_entries entries,
    read_lines float_of_str infile log_entries = Ok (inr entries) ->
    exists appended,
      entries = log_entries ++ appended
      /\ Forall2 (fun line x => read_line float_of_str line = Ok (inr x))
           infile appended.
Proof.
  induction infile as [| line infile IH]; intros acc entries H;
    cbn [read_lines] in H.
  - injection H as <-. exists []. now rewrite app_nil_r.
  - destruct (read_line float_of_str line) as [[e | x] | e] eqn:E;
      cbn [bind] in H; try discriminate.
    apply IH in H. destruct H as (appended & -> & Hall).
    exists (x :: appended). rewrite <- app_assoc. split; [reflexivity |].
    now constructor.
Qed.

Lemma read_line_one_comma (float_of_str : string -> option float)
    (line : string) (x : LogEntry.t) :
  read_line float_of_str line = Ok (inr x) ->
  count "," line = 1%nat /\ read_well x.
Proof.
  intros H.
  pose proof (split_length "," (strip line)) as Hlen.
  rewrite count_strip in Hlen by reflexivity.
  unfold read_line in H.
  destruct (split "," (strip line)) as [| ds [| w [| y parts]]];
    cbn [List.length] in Hlen; try discriminate.
  split; [lia |].
  destruct (datestring_to_datetime_cases ds)
    as [(e & _ & Hd) | (t & _ & Hd & Hv & Ht)]; rewrite Hd in H;
    [discriminate |].
  cbn [bind] in H. destruct (float_of_str w) as [v |]; [| discriminate].
  injection H as <-. split; assumption.
Qed.

Lemma Forall2_in_left {A B : Type} (R : A -> B -> Prop)
    (l : list A) (r : list B) (x : A) :
  Forall2 R l r -> In x l -> exists y, In y r /\ R x y.
Proof.
  induction 1 as [| a b l r Hab _ IH]; intros Hin; [destruct Hin |].
  destruct Hin as [<- | Hin].
  - exists b. split; [now left | exact Hab].
  - destruct (IH Hin) as (y & Hy & Hxy). exists y. split; [now right | exact Hxy].
Qed.

Lemma Forall2_in_right {A B : Type} (R : A -> B -> Prop)
    (l : list A) (r : list B) (y : B) :
  Forall2 R l r -> In y r -> exists x, In x l /\ R x y.
Proof.
  induction 1 as [| a b l r Hab _ IH]; intros Hin; [destruct Hin |].
  destruct Hin as [<- | Hin].
  - exists a. split; [now left | exact Hab].
  - destruct (IH Hin) as (x & Hx & Hxy). exists x. split; [now right | exact Hxy].
Qed.

Lemma digit_is_no_space (x : ascii) :
  in_range "0" "9" x = true -> isspace x = false.
Proof.
  destruct x as [[] [] [] [] [] [] [] []]; vm_compute; congruence.
Qed.

Lemma read_line_accepted (float_of_str : string -> option float)
    (ds w : string) (t : datetime) :
  strptime ds = inr t ->
  count "," w = 0%nat ->
  read_line float_of_str (ds ++ String "," w)
  = match float_of_str (rstrip w) with
    | Some v => Ok (inr (LogEntry.mk t v))
    | None => Ok (inl not_a_float)
    end.
Proof.
  intros Ht Hw.
  destruct (strptime_text ds t Ht) as (_ & Hc & x & s' & Hds & Hx).
  specialize (Hc ","%char eq_refl).
  apply digit_is_no_space in Hx.
  unfold read_line, strip.
  replace (lstrip (ds ++ String "," w)) with (ds ++ String "," w)%string
    by (subst ds; cbn [append lstrip]; now rewrite Hx).
  rewrite rstrip_app by reflexivity.
  rewrite split_app by exact Hc.
  rewrite split_whole by (now rewrite count_rstrip).
  unfold datestring_to_datetime, inspect_datestring_format.
  rewrite Ht. cbn [bind]. reflexivity.
Qed.


(** A file that [parse_log] loads: the file exists and has a line,
    [self.filename] is its name, every line of it has exactly one comma,
    the log has as many entries as the file has lines, [num_entries] is
    that number, and every entry is at one of the dates of [date] and at a
    time of day. *)
Theorem parse_log_of_file_loads (float_of_str : string -> option float)
    (files : string -> option (list string))
    (self self' : WeightLog) (self_filename filename' : option string)
    (filename : string) :
  parse_log_of_file float_of_str files self self_filename filename
  = Ok (inr (self', filename')) ->
  exists infile,
    files filename = Some infile
    /\ infile <> []
    /\ filename' = Some filename
    /\ num_entries self' = Some (List.length infile)
    /\ List.length (log_entries self') = List.length infile
    /\ (forall line, In line infile -> count "," line = 1%nat)
    /\ (forall x, In x (log_entries self') -> read_well x).
Proof.
  unfold parse_log_of_file. intros H.
  destruct (files filename) as [infile |]; [| discriminate].
  exists infile. split; [reflexivity |].
  destruct (read_lines float_of_str infile []) as [[e | entries] | e] eqn:E;
    cbn [bind] in H; try discriminate.
  apply read_lines_spec in E. destruct E as (appended & -> & Hall).
  cbn [app] in H.
  assert (Hlen : List.length appended = List.length infile).
  { symmetry. eapply Forall2_length, Hall. }
  destruct appended as [| x appended].
  { discriminate. }
  destruct (parse_log_nonempty self (x :: appended) ltac:(discriminate))
    as (sorted & first & Hp & Hperm & _ & _).
  rewrite Hp in H. cbn [bind] in H. injection H as <- <-.
  cbn [num_entries log_entries].
  split; [now destruct infile |]. split; [reflexivity |].
  split; [f_equal; exact Hlen |].
  split; [rewrite <- (Permutation_length Hperm); exact Hlen |].
  split.
  - intros line Hin.
    destruct (Forall2_in_left _ _ _ _ Hall Hin) as (y & _ & Hy).
    now apply read_line_one_comma in Hy.
  - intros y Hin. apply (Permutation_in _ (Permutation_sym Hperm)) in Hin.
    destruct (Forall2_in_right _ _ _ _ Hall Hin) as (line & _ & Hy).
    now apply read_line_one_comma in Hy.
Qed.

Lemma parse_log_of_file_loads_witness :
  let float_of_str := fun _ : string => Some 150%float in
  let files := fun name : string =>
    if String.eqb name WEIGHT_LOG
    then Some [" 2023-1-9-8:0,150"%string; "2023-01-02-08:00, 150 "%string]
    else None in
  let self' := mkWeightLog (Some 2%nat) (Some (ymd2ord 2023 1 2))
                 (Some (ymd2ord 2023 1 9))
                 [log_line 2023 1 2 8 0 150; log_line 2023 1 9 8 0 150] [] in
  parse_log_of_file float_of_str files init None WEIGHT_LOG
  = Ok (inr (self', Some WEIGHT_LOG))
  /\ exists infile,
       files WEIGHT_LOG = Some infile
       /\ infile <> []
       /\ Some WEIGHT_LOG = Some WEIGHT_LOG
       /\ num_entries self' = Some (List.length infile)
       /\ List.length (log_entries self') = List.length infile
       /\ (forall line, In line infile -> count "," line = 1%nat)
       /\ (forall x, In x (log_entries self') -> read_well x).
Proof.
  cbv zeta.
  match goal with |- ?P /\ _ => assert (H : P) by reflexivity end.
  split; [exact H |].
  exact (parse_log_of_file_loads _ _ _ _ _ _ _ H).
Defined.

(** The message for a file that does not exist never names that file: it
    formats [self.filename], which is [None] on the object that [main]
    has just made, and the name of the file loaded last on an object that
    has loaded one. *)
Theorem parse_log_names_no_missing_file
    (float_of_str : string -> option float)
    (files : string -> option (list string)) (missing : string) :
  files missing = None ->
  parse_log_of_file float_of_str files init None missing
  = Raise (SystemExit "Opening... None : File not found.")
  /\ forall self self' self_filename filename' filename,
       parse_log_of_file float_of_str files self self_filename filename
       = Ok (inr (self', filename')) ->
       parse_log_of_file float_of_str files self' filename' missing
       = Raise (SystemExit
                  ("Opening... " ++ filename ++ " : File not found.")).
Proof.
  intros Hm. split.
  - unfold parse_log_of_file. now rewrite Hm.
  - intros self self' fn fn' filename H.
    unfold parse_log_of_file in *. rewrite Hm.
    destruct (files filename) as [infile |]; [| discriminate].
    destruct (read_lines float_of_str infile []) as [[e | entries] | e];
      cbn [bind] in H; try discriminate.
    destruct (parse_log self entries); cbn [bind] in H; [| discriminate].
    now injection H as _ <-.
Qed.

Lemma parse_log_names_no_missing_file_witness :
  let float_of_str := fun _ : string => Some 150%float in
  let files := fun name : string =>
    if String.eqb name "old.txt"
    then Some ["2023-01-02-08:00,150"%string] else None in
  files WEIGHT_LOG = None
  /\ parse_log_of_file float_of_str files init None WEIGHT_LOG
     = Raise (SystemExit "Opening... None : File not found.")
  /\ forall self self' self_filename filename' filename,
       parse_log_of_file float_of_str files self self_filename filename
       = Ok (inr (self', filename')) ->
       parse_log_of_file float_of_str files self' filename' WEIGHT_LOG
       = Raise (SystemExit
                  ("Opening... " ++ filename ++ " : File not found.")).
Proof.
  cbv zeta.
  match goal with |- ?P /\ _ => assert (H : P) by reflexivity end.
  split; [exact H |].
  exact (parse_log_names_no_missing_file _ _ _ H).
Defined.

(** A row that [record_weight] hands to the CSV writer: its timestamp is
    the text given, unchanged, with 12 to 16 characters and no comma; its
    weight is [float] of the text given; and the reading loop of
    [parse_log], on a line that holds the timestamp, a comma and a text
    without comma, makes an entry at the datetime that the timestamp stands
    for, whenever [float] converts what follows the comma. *)
Theorem recorded_timestamp_reads_back
    (float_of_str : string -> option float)
    (date_string weight : string) (row : string * float) :
  record_weight float_of_str date_string weight = Ok row ->
  fst row = date_string
  /\ float_of_str weight = Some (snd row)
  /\ count "," date_string = 0%nat
  /\ (12 <= String.length date_string <= 16)%nat
  /\ exists t,
       datestring_to_datetime date_string = Ok (inr t)
       /\ forall w, count "," w = 0%nat ->
            read_line float_of_str (date_string ++ String "," w)
            = match float_of_str (rstrip w) with
              | Some v => Ok (inr (LogEntry.mk t v))
              | None => Ok (inl not_a_float)
              end.
Proof.
  unfold record_weight, inspect_float. intros H.
  destruct (datestring_to_datetime_cases date_string)
    as [(e & He & _) | (t & Ht & Hd & _)].
  { unfold inspect_datestring_format in H. now rewrite He in H. }
  unfold inspect_datestring_format in H. rewrite Ht in H. cbn [bind] in H.
  destruct (float_of_str weight) as [v |]; [| discriminate].
  cbn [bind] in H. injection H as <-. cbn [fst snd].
  destruct (strptime_text date_string t Ht) as (Hlen & Hc & _).
  repeat split; try lia; [now apply Hc |].
  exists t. split; [exact Hd |]. intros w Hw. now apply read_line_accepted.
Qed.

Lemma recorded_timestamp_reads_back_witness :
  let float_of_str := fun _ : string => Some 150%float in
  let date_string := "2020-1-5-7:3"%string in
  record_weight float_of_str date_string "150" = Ok (date_string, 150%float)
  /\ date_string = date_string
  /\ float_of_str "150"%string = Some 150%float
  /\ count "," date_string = 0%nat
  /\ (12 <= String.length date_string <= 16)%nat
  /\ exists t,
       datestring_to_datetime date_string = Ok (inr t)
       /\ forall w, count "," w = 0%nat ->
            read_line float_of_str (date_string ++ String "," w)
            = match float_of_str (rstrip w) with
              | Some v => Ok (inr (LogEntry.mk t v))
              | None => Ok (inl not_a_float)
              end.
Proof.
  cbv zeta.
  match goal with |- ?P /\ _ => assert (H : P) by reflexivity end.
  split; [exact H |].
  exact (recorded_timestamp_reads_back _ _ _ _ H).
Defined.

(** [record_current_weight] is never stopped by the inspection of its own
    timestamp: at one of the dates of [date], at a time of day and from the
    year 1000 on, the row holds the text of [datetime_to_datestring] when
    [float] converts the weight, and the program ends through [error] with
    the message of [inspect_float] when it does not. *)
Theorem record_current_weight_passes_inspection
    (float_of_str : string -> option float)
    (now : datetime) (weight : string) :
  valid_date (dt_date now) -> valid_time now -> 1000 <= year_of now ->
  record_current_weight float_of_str now weight
  = match float_of_str weight with
    | Some v => Ok (datetime_to_datestring now, v)
    | None => Raise (SystemExit (FLOAT_MESSAGE weight))
    end.
Proof.
  intros Hd Ht Hy.
  unfold record_current_weight, record_weight, inspect_datestring_format,
    datetime_to_datestring.
  rewrite (strptime_strftime now Hd Ht Hy). cbn [bind].
  unfold inspect_float. now destruct (float_of_str weight).
Qed.

Lemma record_current_weight_passes_inspection_witness :
  let float_of_str := fun _ : string => @None float in
  let now := mkdatetime (ymd2ord 2024 2 29) 23 59 in
  (valid_date (dt_date now) /\ valid_time now /\ 1000 <= year_of now)
  /\ record_current_weight float_of_str now "heavy"
     = Raise (SystemExit (FLOAT_MESSAGE "heavy")).
Proof.
  cbv zeta.
  assert (Hd : valid_date (dt_date (mkdatetime (ymd2ord 2024 2 29) 23 59)))
    by closed_dates.
  assert (Ht : valid_time (mkdatetime (ymd2ord 2024 2 29) 23 59))
    by (unfold valid_time; cbn; lia).
  assert (Hy : 1000 <= year_of (mkdatetime (ymd2ord 2024 2 29) 23 59))
    by (vm_compute; discriminate).
  split; [repeat split; assumption || apply Hd || apply Ht |].
  exact (record_current_weight_passes_inspection
           (fun _ : string => None) _ "heavy" Hd Ht Hy).
Defined.
